(** * Password security tool: strength checker and secure generator

    A shallow embedding of [src/checker.py] ([PasswordStrengthChecker]),
    [src/generator.py] ([PasswordGenerator]) and [src/models.py], with the
    properties of the specification stated and proved over it.

    Conventions.
    - A Python [str] is a list of Unicode code points ([pystr]).
    - A Python [int] is a [Z]; [len] and [range] counts are [nat].
    - A Python exception is a value of [exn]; a call that can raise returns
      a [result].
    - The secure random source ([secrets]) is an explicit state [rng]: an
      arbitrary infinite supply of raw draws.  Every theorem about the
      generator quantifies over all supplies, hence over every outcome of
      the random choices. *)

From Stdlib Require Import ZArith NArith QArith Qround Qpower Lia String Ascii List.
From Stdlib Require Import Permutation DecimalString.
From stdpp Require Import base list.

Local Open Scope Z_scope.

(** ** Strings and exceptions *)

Definition codepoint := N.
Definition pystr := list codepoint.

(** A source literal, as the list of its code points. *)
Definition str (s : string) : pystr :=
  List.map N_of_ascii (list_ascii_of_string s).

Inductive exn : Type :=
  | ValueError (msg : string)
  | IndexError (msg : string)
  | OverflowError.

Inductive result (A : Type) : Type :=
  | Ok (a : A)
  | Raise (e : exn).
Arguments Ok {A} a.
Arguments Raise {A} e.

(** ** The random source

    [secrets.choice] and [SystemRandom().shuffle] both draw through
    [_randbelow n], which returns an integer in [0, n).  The state is the
    supply of raw draws still to be consumed. *)

Definition rng := nat -> nat.

Definition M (A : Type) : Type := rng -> result (A * rng).

Definition ret {A} (a : A) : M A := fun s => Ok (a, s).

Definition bind {A B} (m : M A) (k : A -> M B) : M B :=
  fun s => match m s with
           | Ok (a, s') => k a s'
           | Raise e => Raise e
           end.

Definition raise {A} (e : exn) : M A := fun _ => Raise e.

Declare Scope rand_scope.
Delimit Scope rand_scope with rand.
Notation "x <- m ;; k" := (bind m (fun x => k))
  (at level 100, m at next level, right associativity) : rand_scope.
Local Open Scope rand_scope.

Definition randbelow (n : nat) : M nat :=
  fun s => Ok ((s 0 mod n)%nat, fun k => s (S k)).

(** [secrets.choice(seq)]: [seq[randbelow(len(seq))]], [IndexError] on an
    empty sequence. *)
Definition choice {A} (seq : list A) : M A :=
  match seq with
  | [] => raise (IndexError "Cannot choose from an empty sequence")
  | d :: _ => i <- randbelow (List.length seq) ;; ret (nth i seq d)
  end.

(** [[m for _ in range(n)]] *)
Fixpoint replicateM {A} (n : nat) (m : M A) : M (list A) :=
  match n with
  | O => ret []
  | S n' => x <- m ;; xs <- replicateM n' m ;; ret (x :: xs)
  end.

(** [x[i], x[j] = x[j], x[i]] *)
Definition swap {A} (x : list A) (i j : nat) : list A :=
  match x !! i, x !! j with
  | Some xi, Some xj => <[j:=xi]> (<[i:=xj]> x)
  | _, _ => x
  end.

(** [random.shuffle]:
    [for i in reversed(range(1, len(x))): j = randbelow(i + 1); swap].
    [shuffle_from i x] runs the iterations [i, i-1, ..., 1]. *)
Fixpoint shuffle_from {A} (i : nat) (x : list A) : M (list A) :=
  match i with
  | O => ret x
  | S i' => j <- randbelow (i + 1) ;; shuffle_from i' (swap x i j)
  end.

Definition shuffle {A} (x : list A) : M (list A) :=
  shuffle_from (List.length x - 1) x.

(** ** [PasswordGenerator] *)

Module PasswordGenerator.

(** [__init__] *)
Definition lowercase : pystr := str "abcdefghijklmnopqrstuvwxyz".
Definition uppercase : pystr := str "ABCDEFGHIJKLMNOPQRSTUVWXYZ".
Definition digits : pystr := str "0123456789".
Definition symbols : pystr := str "!@#$%^&*()_+-=[]{}|;:,.<>?".

Definition word_list : list pystr := List.map str
  [ "correct"; "horse"; "battery"; "staple"; "mountain"; "river";
    "ocean"; "forest"; "castle"; "dragon"; "wizard"; "knight";
    "phoenix"; "thunder"; "crystal"; "shadow"; "silver"; "golden";
    "mystic"; "ancient"; "cosmic"; "digital"; "quantum"; "stellar";
    "cipher"; "falcon"; "granite"; "harbor"; "island"; "jungle";
    "kingdom"; "lunar"; "nebula"; "orbit"; "prism"; "radar";
    "summit"; "tempest"; "ultraviolet"; "vertex"; "whisper"; "xenon";
    "yellow"; "zenith"; "alpha"; "bravo"; "charlie"; "delta" ]%string.

(** The three failures of the specification's taxonomy, as the code
    raises them. *)
Definition InvalidLength : exn :=
  ValueError "Password length must be at least 8 characters".
Definition NoCharsetSelected : exn :=
  ValueError "At least one character type must be selected".
Definition InvalidWordCount : exn :=
  ValueError "Passphrase must contain at least 3 words".

(** [if flag: password.append(secrets.choice(cls))] *)
Definition append_choice (flag : bool) (cls : pystr) (password : pystr)
  : M pystr :=
  if flag then c <- choice cls ;; ret (password ++ [c]) else ret password.

Definition build_charset
  (use_lowercase use_uppercase use_digits use_symbols : bool) : pystr :=
  let charset := [] in
  let charset := if use_lowercase then charset ++ lowercase else charset in
  let charset := if use_uppercase then charset ++ uppercase else charset in
  let charset := if use_digits then charset ++ digits else charset in
  let charset := if use_symbols then charset ++ symbols else charset in
  charset.

(** [str.capitalize] on the words of [word_list], which are ASCII: the first
    letter to upper case, the others to lower case. *)
Definition ascii_upper (c : codepoint) : codepoint :=
  if ((97 <=? c) && (c <=? 122))%N then (c - 32)%N else c.
Definition ascii_lower (c : codepoint) : codepoint :=
  if ((65 <=? c) && (c <=? 90))%N then (c + 32)%N else c.
Definition capitalize (word : pystr) : pystr :=
  match word with
  | [] => []
  | c :: w => ascii_upper c :: List.map ascii_lower w
  end.

(** [separator.join(words)] *)
Fixpoint join (separator : pystr) (words : list pystr) : pystr :=
  match words with
  | [] => []
  | [w] => w
  | w :: ws => w ++ separator ++ join separator ws
  end.

Definition generate (length : Z)
  (use_lowercase use_uppercase use_digits use_symbols : bool) : M pystr :=
  if length <? 8 then raise InvalidLength else
  let charset :=
    build_charset use_lowercase use_uppercase use_digits use_symbols in
  match charset with
  | [] => raise NoCharsetSelected
  | _ :: _ =>
    password <- append_choice use_lowercase lowercase [] ;;
    password <- append_choice use_uppercase uppercase password ;;
    password <- append_choice use_digits digits password ;;
    password <- append_choice use_symbols symbols password ;;
    let remaining_length := length - Z.of_nat (List.length password) in
    rest <- replicateM (Z.to_nat remaining_length) (choice charset) ;;
    shuffle (password ++ rest)
  end.

Definition generate_passphrase (word_count : Z) (separator : pystr)
  (capitalize_flag : bool) : M pystr :=
  if word_count <? 3 then raise InvalidWordCount else
  selected_words <- replicateM (Z.to_nat word_count) (choice word_list) ;;
  let selected_words :=
    if capitalize_flag then List.map capitalize selected_words
    else selected_words in
  ret (join separator selected_words).

Definition generate_pin (length : Z) : M pystr :=
  replicateM (Z.to_nat length) (choice digits).

Definition generate_multiple (count length : Z)
  (use_lowercase use_uppercase use_digits use_symbols : bool)
  : M (list pystr) :=
  replicateM (Z.to_nat count)
    (generate length use_lowercase use_uppercase use_digits use_symbols).

(** Observations on a generated string: [s.count(c)] and [s.split(c)] for
    a one-character [c]. *)
Definition occurrences (c : codepoint) (s : pystr) : nat :=
  List.length (List.filter (N.eqb c) s).

Fixpoint split_on (c : codepoint) (s : pystr) : list pystr :=
  match s with
  | [] => [[]]
  | x :: s' =>
    if (x =? c)%N then [] :: split_on c s'
    else match split_on c s' with
         | seg :: segs => (x :: seg) :: segs
         | [] => [[x]]
         end
  end.

(** A word with no separator in it, and not empty. *)
Definition sep_free (c : codepoint) (w : pystr) : bool :=
  forallb (fun x => negb (x =? c)%N) w.
Definition word_ok (c : codepoint) (w : pystr) : bool :=
  match w with [] => false | _ :: _ => sep_free c w end.

(** Some character of [s] belongs to the class [cls]. *)
Definition has_char_of (cls s : pystr) : bool :=
  existsb (fun c => existsb (N.eqb c) cls) s.

End PasswordGenerator.

(** ** Python floats

    A finite [float] is IEEE 754 binary64; the model carries its exact
    rational value.  Every arithmetic operation is the exact operation
    followed by rounding to the nearest binary64, ties to even ([RN]).
    Overflow of [RN] is out of reach of the checker: [len(password)] is
    below [2^63] and the logarithm of a charset size is below 7, so [RN]
    is written without the upper exponent bound. *)

Definition pyfloat := Q.

(** [mag x = floor (log2 x)] for [x > 0]. *)
Definition mag (x : Q) : Z :=
  let k := Z.log2 (Qnum x) - Z.log2 (Zpos (Qden x)) in
  if Qle_bool (2 ^ k)%Q x then k else k - 1.

(** The exponent of the last place of a binary64 near [x]: 53 significant
    bits, least exponent [-1074]. *)
Definition fexp (x : Q) : Z := Z.max (mag x - 52) (-1074).

(** Rounding to the nearest integer, ties to even. *)
Definition rhe (x : Q) : Z :=
  let f := Qfloor x in
  match (x - inject_Z f ?= 1 # 2)%Q with
  | Lt => f
  | Gt => f + 1
  | Eq => if Z.even f then f else f + 1
  end.

Definition RN_pos (x : Q) : Q :=
  Qred (inject_Z (rhe (x * 2 ^ (- fexp x))%Q) * 2 ^ fexp x)%Q.

Definition RN (x : Q) : pyfloat :=
  match (x ?= 0)%Q with
  | Eq => 0%Q
  | Gt => RN_pos x
  | Lt => (- RN_pos (- x))%Q
  end.

Definition float_of_int (n : Z) : pyfloat := RN (inject_Z n).
Definition fmul (x y : pyfloat) : pyfloat := RN (x * y)%Q.
Definition fdiv (x y : pyfloat) : pyfloat := RN (x / y)%Q.
Definition Qltb (x y : Q) : bool := negb (Qle_bool y x).

(** [round(x, 2)]: CPython prints the exact value of [x] with two decimals,
    correctly rounded (ties to even), and reads the decimal back. *)
Definition round2 (x : pyfloat) : pyfloat :=
  RN (inject_Z (rhe (x * 100)%Q) / 100)%Q.

(** [int(x)]: truncation toward zero. *)
Definition int_of_float (x : pyfloat) : Z :=
  if Qle_bool 0%Q x then Qfloor x else Qceiling x.

(** [f"{n}"] for an [int]. *)
Definition format_int (n : Z) : string :=
  NilZero.string_of_int (Z.to_int n).

(** ** [models.py] *)

Inductive StrengthLevel : Type :=
  | VERY_WEAK | WEAK | FAIR | GOOD | STRONG | VERY_STRONG.

Definition StrengthLevel_value (l : StrengthLevel) : Z :=
  match l with
  | VERY_WEAK => 0 | WEAK => 1 | FAIR => 2
  | GOOD => 3 | STRONG => 4 | VERY_STRONG => 5
  end.

Record PasswordAnalysis : Type := {
  password : pystr;
  strength : StrengthLevel;
  score : Z;
  entropy : pyfloat;
  feedback : list string;
  time_to_crack : string
}.

(** ** [PasswordStrengthChecker] *)

(** [pattern in s] *)
Fixpoint starts_with (pattern s : pystr) : bool :=
  match pattern, s with
  | [], _ => true
  | _ :: _, [] => false
  | p :: pattern', c :: s' => (p =? c)%N && starts_with pattern' s'
  end.

Fixpoint contains (pattern s : pystr) : bool :=
  starts_with pattern s ||
  match s with
  | [] => false
  | _ :: s' => contains pattern s'
  end.

(** [re.search(r'(.)\1{2,}', s)]: three equal consecutive characters; [.]
    does not match a newline. *)
Fixpoint has_repeat3 (s : pystr) : bool :=
  match s with
  | a :: ((b :: c :: _) as s') =>
    (negb (a =? 10) && (a =? b) && (a =? c))%N || has_repeat3 s'
  | _ => false
  end.

(** The character classes [[a-z]], [[A-Z]], [[0-9]] of the regular
    expressions. *)
Definition in_a_z (c : codepoint) : bool := ((97 <=? c) && (c <=? 122))%N.
Definition in_A_Z (c : codepoint) : bool := ((65 <=? c) && (c <=? 90))%N.
Definition in_0_9 (c : codepoint) : bool := ((48 <=? c) && (c <=? 57))%N.

(** [for pattern in patterns: if pattern in s: ...; break]: the first
    pattern found in [s]. *)
Fixpoint first_match (patterns : list string) (s : pystr) : option string :=
  match patterns with
  | [] => None
  | pattern :: rest =>
    if contains (str pattern) s then Some pattern else first_match rest s
  end.

Module PasswordStrengthChecker.

Definition COMMON_PASSWORDS : list string :=
  [ "password"; "123456"; "12345678"; "qwerty"; "abc123";
    "monkey"; "1234567"; "letmein"; "trustno1"; "dragon";
    "baseball"; "iloveyou"; "master"; "sunshine"; "ashley";
    "bailey"; "passw0rd"; "shadow"; "123123"; "654321";
    "admin"; "welcome"; "login"; "password1"; "qwerty123" ]%string.

Definition COMMON_PATTERNS : list string :=
  [ "123"; "abc"; "qwe"; "111"; "000"; "aaa" ]%string.

Definition KEYBOARD_PATTERNS : list string :=
  [ "qwerty"; "asdfgh"; "zxcvbn"; "1qaz"; "2wsx";
    "qwertyuiop"; "asdfghjkl"; "zxcvbnm" ]%string.

(** [__init__] *)
Definition min_length : Z := 8.
Definition recommended_length : Z := 12.
Definition strong_length : Z := 16.

Definition _determine_strength (score : Z) (entropy : pyfloat)
  : StrengthLevel :=
  if (score <=? 0) || Qltb entropy 28%Q then VERY_WEAK
  else if (score <=? 2) || Qltb entropy 36%Q then WEAK
  else if (score <=? 4) || Qltb entropy 50%Q then FAIR
  else if (score <=? 6) || Qltb entropy 60%Q then GOOD
  else if (score <=? 8) || Qltb entropy 70%Q then STRONG
  else VERY_STRONG.

(** The band table as the specification words it: each level with its
    score ceiling and its entropy floor, in ascending order; the level of
    a password is that of the first band whose condition holds, and
    [VERY_STRONG] when none does. *)
Definition spec_bands : list (StrengthLevel * Z * Q) :=
  [ (VERY_WEAK, 0, 28%Q); (WEAK, 2, 36%Q); (FAIR, 4, 50%Q);
    (GOOD, 6, 60%Q); (STRONG, 8, 70%Q) ].

Fixpoint first_band (bands : list (StrengthLevel * Z * Q))
  (score : Z) (entropy : pyfloat) : StrengthLevel :=
  match bands with
  | [] => VERY_STRONG
  | (level, ceiling, floor) :: rest =>
    if (score <=? ceiling) || Qltb entropy floor then level
    else first_band rest score entropy
  end.

Definition spec_strength : Z -> pyfloat -> StrengthLevel :=
  first_band spec_bands.

Definition _check_length (password : pystr) : Z * list string :=
  let length := Z.of_nat (List.length password) in
  let feedback := [] in
  let score := 0 in
  if length <? min_length then
    let feedback := feedback ++
      [("Password too short. Use at least " ++ format_int min_length
        ++ " characters")%string] in
    let score := score - 2 in
    (score, feedback)
  else if length >=? strong_length then
    let score := score + 3 in
    (score, feedback)
  else if length >=? recommended_length then
    let score := score + 2 in
    (score, feedback)
  else
    let score := score + 1 in
    let feedback := feedback ++
      [("Consider using at least " ++ format_int recommended_length
        ++ " characters")%string] in
    (score, feedback).

(** The parts of the Python runtime the checker calls and that are not
    arithmetic: Unicode tables and the C mathematical library. *)
Section Runtime.

(** [\d] in a [str] pattern: the Unicode decimal digits. *)
Variable re_digit : codepoint -> bool.
(** [str.lower] *)
Variable str_lower : pystr -> pystr.
(** [math.log2] at an [int] *)
Variable math_log2 : Z -> pyfloat.
(** the C [pow(2.0, y)] for [y] below 1024 *)
Variable libm_pow2 : pyfloat -> pyfloat.

Definition has_lower (password : pystr) : bool := existsb in_a_z password.
Definition has_upper (password : pystr) : bool := existsb in_A_Z password.
Definition has_digit (password : pystr) : bool := existsb re_digit password.
Definition has_symbol (password : pystr) : bool :=
  existsb (fun c => negb (in_a_z c || in_A_Z c || in_0_9 c)) password.

Definition _check_character_variety (password : pystr) : Z * list string :=
  let feedback := [] in
  let score := 0 in
  let '(score, feedback) :=
    if has_lower password then (score + 1, feedback)
    else (score, feedback ++ ["Add lowercase letters (a-z)"%string]) in
  let '(score, feedback) :=
    if has_upper password then (score + 1, feedback)
    else (score, feedback ++ ["Add uppercase letters (A-Z)"%string]) in
  let '(score, feedback) :=
    if has_digit password then (score + 1, feedback)
    else (score, feedback ++ ["Add numbers (0-9)"%string]) in
  let '(score, feedback) :=
    if has_symbol password then (score + 2, feedback)
    else (score, feedback ++ ["Add special characters (!@#$%^&*)"%string]) in
  (score, feedback).

Definition _check_patterns (password : pystr) : Z * list string :=
  let feedback := [] in
  let penalty := 0 in
  let lower_pwd := str_lower password in
  let '(penalty, feedback) :=
    if bool_decide (lower_pwd ∈ List.map str COMMON_PASSWORDS) then
      (penalty - 5,
       feedback ++ ["This is a commonly used password - avoid it"%string])
    else (penalty, feedback) in
  let '(penalty, feedback) :=
    match first_match COMMON_PATTERNS lower_pwd with
    | Some pattern =>
      (penalty - 1,
       feedback ++
         [("Avoid common patterns like '" ++ pattern ++ "'")%string])
    | None => (penalty, feedback)
    end in
  (penalty, feedback).

Definition _check_sequences (password : pystr) : Z * list string :=
  let feedback := [] in
  let penalty := 0 in
  let '(penalty, feedback) :=
    if has_repeat3 password then
      (penalty - 1,
       feedback ++
         ["Avoid repeated characters (e.g., 'aaa', '111')"%string])
    else (penalty, feedback) in
  let lower_pwd := str_lower password in
  let '(penalty, feedback) :=
    match first_match KEYBOARD_PATTERNS lower_pwd with
    | Some _ => (penalty - 1, feedback ++ ["Avoid keyboard patterns"%string])
    | None => (penalty, feedback)
    end in
  (penalty, feedback).

Definition charset_size_of (password : pystr) : Z :=
  let charset_size := 0 in
  let charset_size :=
    if has_lower password then charset_size + 26 else charset_size in
  let charset_size :=
    if has_upper password then charset_size + 26 else charset_size in
  let charset_size :=
    if has_digit password then charset_size + 10 else charset_size in
  let charset_size :=
    if has_symbol password then charset_size + 32 else charset_size in
  charset_size.

Definition _calculate_entropy (password : pystr) : pyfloat :=
  let charset_size := charset_size_of password in
  if charset_size =? 0 then 0%Q
  else
    let entropy :=
      fmul (float_of_int (Z.of_nat (List.length password)))
           (math_log2 charset_size) in
    round2 entropy.

(** [2 ** entropy]: CPython raises [OverflowError] when the C [pow]
    overflows, which for the base 2 is when the exponent reaches 1024. *)
Definition pow2 (y : pyfloat) : result pyfloat :=
  if Qle_bool 1024%Q y then Raise OverflowError else Ok (libm_pow2 y).

Definition _estimate_crack_time (entropy : pyfloat) : result string :=
  match pow2 entropy with
  | Raise e => Raise e
  | Ok attempts =>
    let guesses_per_second := 1000000000%Q in
    let seconds := fdiv attempts guesses_per_second in
    Ok (if Qltb seconds 1%Q then "Instant"
        else if Qltb seconds 60%Q then
          format_int (int_of_float seconds) ++ " seconds"
        else if Qltb seconds 3600%Q then
          format_int (int_of_float (fdiv seconds 60%Q)) ++ " minutes"
        else if Qltb seconds 86400%Q then
          format_int (int_of_float (fdiv seconds 3600%Q)) ++ " hours"
        else if Qltb seconds 31536000%Q then
          format_int (int_of_float (fdiv seconds 86400%Q)) ++ " days"
        else if Qltb seconds (inject_Z (31536000 * 100)) then
          format_int (int_of_float (fdiv seconds 31536000%Q)) ++ " years"
        else "Centuries")%string
  end.

(** The sum of the four checks, before [max(0, score)]. *)
Definition total_score (password : pystr) : Z :=
  fst (_check_length password)
  + fst (_check_character_variety password)
  + fst (_check_patterns password)
  + fst (_check_sequences password).

(** The feedback of the four checks, in the order they run. *)
Definition all_feedback (password : pystr) : list string :=
  ((([] ++ snd (_check_length password))
    ++ snd (_check_character_variety password))
   ++ snd (_check_patterns password))
  ++ snd (_check_sequences password).

Definition check_strength (password : pystr) : result PasswordAnalysis :=
  match password with
  | [] =>
    Ok {| password := [];
          strength := VERY_WEAK;
          score := 0;
          entropy := 0%Q;
          feedback := ["Password cannot be empty"%string];
          time_to_crack := "Instant" |}
  | _ :: _ =>
    let score := 0 in
    let feedback := [] in
    let '(length_score, length_feedback) := _check_length password in
    let score := score + length_score in
    let feedback := feedback ++ length_feedback in
    let '(variety_score, variety_feedback) :=
      _check_character_variety password in
    let score := score + variety_score in
    let feedback := feedback ++ variety_feedback in
    let '(pattern_penalty, pattern_feedback) := _check_patterns password in
    let score := score + pattern_penalty in
    let feedback := feedback ++ pattern_feedback in
    let '(sequence_penalty, sequence_feedback) :=
      _check_sequences password in
    let score := score + sequence_penalty in
    let feedback := feedback ++ sequence_feedback in
    let entropy := _calculate_entropy password in
    let strength := _determine_strength score entropy in
    match _estimate_crack_time entropy with
    | Raise e => Raise e
    | Ok time_to_crack =>
      Ok {| password := password;
            strength := strength;
            score := Z.max 0 score;
            entropy := entropy;
            feedback :=
              match feedback with
              | [] => ["Password meets security requirements"%string]
              | _ :: _ => feedback
              end;
            time_to_crack := time_to_crack |}
    end
  end.

End Runtime.

(** The values [charset_size] can take in [_calculate_entropy] on a
    nonempty password: the sums of 26, 26, 10 and 32 over the nonempty
    sets of classes. *)
Definition charset_sizes : list Z :=
  [10; 26; 32; 36; 42; 52; 58; 62; 68; 84; 94].

End PasswordStrengthChecker.

(** ** A reference runtime

    Concrete values for the runtime parameters, used to run the checker:
    exact on ASCII passwords.  [math_log2] lists the binary64 values of
    [math.log2] at the eleven charset sizes the checker can reach;
    [libm_pow2] is exact at integral exponents and follows the chord of
    the exponential in between. *)
Module Reference.

Definition re_digit (c : codepoint) : bool := in_0_9 c.

Definition str_lower (s : pystr) : pystr :=
  List.map PasswordGenerator.ascii_lower s.

Definition math_log2 (n : Z) : pyfloat :=
  match n with
  | 10%Z => 7480317065143153 # 2251799813685248
  | 26%Z => 5292224640774425 # 1125899906842624
  | 32%Z => 5
  | 36%Z => 1455204519376813 # 281474976710656
  | 42%Z => 6071209683972465 # 1125899906842624
  | 52%Z => 6418124547617049 # 1125899906842624
  | 58%Z => 6595500256699995 # 1125899906842624
  | 62%Z => 3351914535593639 # 562949953421312
  | 68%Z => 1713468461467923 # 281474976710656
  | 84%Z => 7197109590815089 # 1125899906842624
  | 94%Z => 3689905488747777 # 562949953421312
  | _ => 0
  end%Q.

Definition libm_pow2 (y : pyfloat) : pyfloat :=
  RN (2 ^ Qfloor y * (1 + (y - inject_Z (Qfloor y))))%Q.

Definition check_strength_ref : pystr -> result PasswordAnalysis :=
  PasswordStrengthChecker.check_strength
    re_digit str_lower math_log2 libm_pow2.

End Reference.

(** * Properties *)

(** ** The random source *)

Section RandomSource.
Context {A : Type}.
Implicit Types (x seq : list A) (s : rng).

Lemma bind_Ok {B C} (m : M B) (k : B -> M C) s b s' :
  m s = Ok (b, s') -> bind m k s = k b s'.
Proof. intros H. unfold bind. now rewrite H. Qed.

Lemma randbelow_spec (n : nat) s :
  n <> 0%nat ->
  exists j, randbelow n s = Ok (j, fun k => s (S k)) /\ (j < n)%nat.
Proof.
  intros Hn. exists (s 0%nat mod n)%nat. split; [reflexivity|].
  now apply Nat.mod_upper_bound.
Qed.

(** [secrets.choice] on a nonempty sequence returns one of its items. *)
Lemma choice_spec seq s :
  seq <> [] -> exists c s', choice seq s = Ok (c, s') /\ In c seq.
Proof.
  destruct seq as [|d seq']; [congruence|]. intros _.
  destruct (randbelow_spec (List.length (d :: seq')) s) as (j & Hj & Hlt);
    [discriminate|].
  exists (nth j (d :: seq') d), (fun k => s (S k)). split.
  - unfold choice. now rewrite (bind_Ok _ _ _ _ _ Hj).
  - now apply nth_In.
Qed.

Lemma replicateM_spec {B} (P : B -> Prop) (m : M B) (n : nat) :
  (forall s, exists b s', m s = Ok (b, s') /\ P b) ->
  forall s, exists l s',
    replicateM n m s = Ok (l, s') /\ List.length l = n /\ Forall P l.
Proof.
  intros Hm. induction n as [|n IH]; intros s; simpl.
  - exists [], s. repeat split. constructor.
  - destruct (Hm s) as (b & s1 & Hb & HP).
    destruct (IH s1) as (l & s2 & Hl & Hlen & HF).
    exists (b :: l), s2.
    rewrite (bind_Ok _ _ _ _ _ Hb), (bind_Ok _ _ _ _ _ Hl).
    repeat split; simpl; [congruence | now constructor].
Qed.

Lemma swap_Permutation x i j : swap x i j ≡ₚ x.
Proof.
  unfold swap. destruct (x !! i) as [xi|] eqn:Hi; [|reflexivity].
  destruct (x !! j) as [xj|] eqn:Hj; [|reflexivity].
  now apply Permutation_insert_swap.
Qed.

Lemma shuffle_from_spec i : forall x s,
  exists y s', shuffle_from i x s = Ok (y, s') /\ y ≡ₚ x.
Proof.
  induction i as [|i IH]; intros x s; simpl.
  - now exists x, s.
  - destruct (randbelow_spec (S i + 1) s) as (j & Hj & _); [lia|].
    destruct (IH (swap x (S i) j) (fun k => s (S k))) as (y & s' & Hy & Hp).
    exists y, s'. rewrite (bind_Ok _ _ _ _ _ Hj). split; [exact Hy|].
    rewrite Hp. apply swap_Permutation.
Qed.

(** [shuffle] returns a rearrangement of its argument. *)
Lemma shuffle_spec x s :
  exists y s', shuffle x s = Ok (y, s') /\ y ≡ₚ x.
Proof. apply shuffle_from_spec. Qed.

End RandomSource.

(** ** The generator *)

Module GeneratorFacts.
Import PasswordGenerator.

Lemma has_char_of_In cls s (c : codepoint) :
  In c s -> In c cls -> has_char_of cls s = true.
Proof.
  intros Hs Hc. unfold has_char_of. apply existsb_exists.
  exists c. split; [exact Hs|]. apply existsb_exists.
  exists c. split; [exact Hc|]. apply N.eqb_refl.
Qed.

Lemma append_choice_spec (flag : bool) cls pw s :
  cls <> [] ->
  exists extra s',
    append_choice flag cls pw s = Ok (pw ++ extra, s')
    /\ (List.length extra <= 1)%nat
    /\ (flag = true -> exists c, In c extra /\ In c cls).
Proof.
  intros Hcls. destruct flag; simpl.
  - destruct (choice_spec cls s Hcls) as (c & s' & Hc & Hin).
    exists [c], s'. rewrite (bind_Ok _ _ _ _ _ Hc).
    repeat split; simpl; [lia|]. intros _. exists c. now split; [left|].
  - exists [], s. unfold ret. rewrite app_nil_r.
    repeat split; simpl; [lia | discriminate].
Qed.

Lemma build_charset_nil lo up di sy :
  build_charset lo up di sy = [] <-> lo || up || di || sy = false.
Proof. destruct lo, up, di, sy; vm_compute; split; congruence. Qed.

(** The whole of [generate] on valid parameters. *)
Lemma generate_valid (length : Z) (lo up di sy : bool) (s : rng) :
  8 <= length -> lo || up || di || sy = true ->
  exists pw s',
    generate length lo up di sy s = Ok (pw, s')
    /\ Z.of_nat (List.length pw) = length
    /\ (lo = true -> has_char_of lowercase pw = true)
    /\ (up = true -> has_char_of uppercase pw = true)
    /\ (di = true -> has_char_of digits pw = true)
    /\ (sy = true -> has_char_of symbols pw = true).
Proof.
  intros Hlen Hflags. unfold generate.
  destruct (Z.ltb_spec length 8) as [?|_]; [lia|].
  destruct (build_charset lo up di sy) as [|c0 cs] eqn:Hcs.
  { apply build_charset_nil in Hcs. congruence. }
  destruct (append_choice_spec lo lowercase [] s) as (e1 & s1 & H1 & L1 & C1);
    [discriminate|].
  destruct (append_choice_spec up uppercase ([] ++ e1) s1)
    as (e2 & s2 & H2 & L2 & C2); [discriminate|].
  destruct (append_choice_spec di digits (([] ++ e1) ++ e2) s2)
    as (e3 & s3 & H3 & L3 & C3); [discriminate|].
  destruct (append_choice_spec sy symbols ((([] ++ e1) ++ e2) ++ e3) s3)
    as (e4 & s4 & H4 & L4 & C4); [discriminate|].
  set (pw4 := (((([] ++ e1) ++ e2) ++ e3) ++ e4)) in *.
  assert (Hpw4 : (List.length pw4 <= 4)%nat).
  { unfold pw4. rewrite !length_app. simpl. lia. }
  destruct (replicateM_spec (fun _ => True) (choice (c0 :: cs))
              (Z.to_nat (length - Z.of_nat (List.length pw4)))
              ltac:(intros t; destruct (choice_spec (c0 :: cs) t)
                      as (c & t' & Hc & _); [discriminate|]; eauto) s4)
    as (rest & s5 & Hrest & Lrest & _).
  destruct (shuffle_spec (pw4 ++ rest) s5) as (pw & s6 & Hsh & Hperm).
  exists pw, s6.
  rewrite (bind_Ok _ _ _ _ _ H1), (bind_Ok _ _ _ _ _ H2),
    (bind_Ok _ _ _ _ _ H3), (bind_Ok _ _ _ _ _ H4).
  fold pw4. cbv zeta. rewrite (bind_Ok _ _ _ _ _ Hrest).
  split; [exact Hsh|].
  assert (Hin : forall c, In c pw4 -> In c pw).
  { intros c Hc. apply list_elem_of_In. rewrite Hperm.
    apply list_elem_of_In, in_or_app. now left. }
  split.
  { rewrite (Permutation_length Hperm), length_app, Lrest. lia. }
  unfold pw4 in Hin.
  repeat split; intros Hf.
  - destruct (C1 Hf) as (c & Hc & Hcls).
    apply (has_char_of_In _ _ c); [|exact Hcls].
    apply Hin. rewrite !in_app_iff. tauto.
  - destruct (C2 Hf) as (c & Hc & Hcls).
    apply (has_char_of_In _ _ c); [|exact Hcls].
    apply Hin. rewrite !in_app_iff. tauto.
  - destruct (C3 Hf) as (c & Hc & Hcls).
    apply (has_char_of_In _ _ c); [|exact Hcls].
    apply Hin. rewrite !in_app_iff. tauto.
  - destruct (C4 Hf) as (c & Hc & Hcls).
    apply (has_char_of_In _ _ c); [|exact Hcls].
    apply Hin. rewrite !in_app_iff. tauto.
Qed.

(** C1: for every length of at least 8 and every choice of the four class
    flags with at least one set, [generate] returns a string of exactly
    [length] characters in which every selected class (lowercase,
    uppercase, digits, symbols) occurs at least once, whatever the random
    source draws. *)
Theorem generate_length_and_coverage
  (length : Z) (lo up di sy : bool) (s : rng) :
  8 <= length -> lo || up || di || sy = true ->
  exists pw s',
    generate length lo up di sy s = Ok (pw, s')
    /\ Z.of_nat (List.length pw) = length
    /\ (lo = true -> has_char_of lowercase pw = true)
    /\ (up = true -> has_char_of uppercase pw = true)
    /\ (di = true -> has_char_of digits pw = true)
    /\ (sy = true -> has_char_of symbols pw = true).
Proof. apply generate_valid. Qed.

Lemma generate_length_and_coverage_witness :
  exists pw s',
    generate 16 true true true true (fun n => n) = Ok (pw, s')
    /\ Z.of_nat (List.length pw) = 16
    /\ (true = true -> has_char_of lowercase pw = true)
    /\ (true = true -> has_char_of uppercase pw = true)
    /\ (true = true -> has_char_of digits pw = true)
    /\ (true = true -> has_char_of symbols pw = true).
Proof.
  apply (generate_length_and_coverage 16 true true true true (fun n => n));
    [lia | reflexivity].
Defined.

Lemma generate_short (length : Z) (lo up di sy : bool) (s : rng) :
  length < 8 -> generate length lo up di sy s = Raise InvalidLength.
Proof.
  intros H. unfold generate.
  destruct (Z.ltb_spec length 8) as [_|?]; [reflexivity | lia].
Qed.

Lemma generate_no_charset (length : Z) (lo up di sy : bool) (s : rng) :
  8 <= length -> lo || up || di || sy = false ->
  generate length lo up di sy s = Raise NoCharsetSelected.
Proof.
  intros H Hf. unfold generate.
  destruct (Z.ltb_spec length 8) as [?|_]; [lia|].
  apply build_charset_nil in Hf. now rewrite Hf.
Qed.

(** C6: [generate] fails with [InvalidLength] exactly when the length is
    below 8; it fails with [NoCharsetSelected] when the length is at least
    8 and the four flags are all false; in every other case it returns a
    string. *)
Theorem generate_failures (length : Z) (lo up di sy : bool) (s : rng) :
  (generate length lo up di sy s = Raise InvalidLength <-> length < 8)
  /\ (8 <= length -> lo || up || di || sy = false ->
      generate length lo up di sy s = Raise NoCharsetSelected)
  /\ (8 <= length -> lo || up || di || sy = true ->
      exists pw s', generate length lo up di sy s = Ok (pw, s')).
Proof.
  split; [|split].
  - split; [|apply generate_short].
    intros Hraise. destruct (Z.lt_ge_cases length 8) as [?|Hge]; [assumption|].
    destruct (lo || up || di || sy) eqn:Hf.
    + destruct (generate_valid length lo up di sy s Hge Hf)
        as (pw & s' & Hok & _). congruence.
    + rewrite (generate_no_charset _ _ _ _ _ _ Hge Hf) in Hraise.
      discriminate.
  - apply generate_no_charset.
  - intros Hge Hf.
    destruct (generate_valid length lo up di sy s Hge Hf)
      as (pw & s' & Hok & _). eauto.
Qed.

(** C7 (as the code has it): the generator's symbol set has exactly 26
    characters, all different. *)
Theorem symbols_has_26_characters :
  List.length symbols = 26%nat /\ NoDup symbols.
Proof.
  split; [reflexivity|].
  apply (bool_decide_unpack _). vm_compute. exact I.
Qed.

(** The count of 28 does not hold of the code's symbol set. *)
Lemma symbols_not_28_characters : List.length symbols <> 28%nat.
Proof. vm_compute. discriminate. Qed.

(** C10: when the length is below 8 and no class is selected, the failure
    is [InvalidLength]; [NoCharsetSelected] is only ever raised for a
    length of at least 8. *)
Theorem length_checked_before_charset (length : Z) (s : rng) :
  (length < 8 ->
   generate length false false false false s = Raise InvalidLength)
  /\ (forall lo up di sy,
        generate length lo up di sy s = Raise NoCharsetSelected ->
        8 <= length).
Proof.
  split; [apply generate_short|].
  intros lo up di sy Hraise.
  destruct (Z.lt_ge_cases length 8) as [Hlt|?]; [|assumption].
  rewrite (generate_short _ lo up di sy s Hlt) in Hraise. discriminate.
Qed.

(** *** Passphrases *)

Lemma word_list_ok :
  forallb (fun w => word_ok 45%N w && word_ok 45%N (capitalize w)) word_list
  = true.
Proof. vm_compute. reflexivity. Qed.

Lemma split_on_sep_free c w : sep_free c w = true -> split_on c w = [w].
Proof.
  induction w as [|x w IH]; simpl; [reflexivity|].
  intros [Hx Hw]%andb_prop. apply negb_true_iff in Hx.
  now rewrite Hx, (IH Hw).
Qed.

Lemma split_on_app c w rest :
  sep_free c w = true ->
  split_on c (w ++ c :: rest) = w :: split_on c rest.
Proof.
  induction w as [|x w IH]; simpl.
  - now rewrite N.eqb_refl.
  - intros [Hx Hw]%andb_prop. apply negb_true_iff in Hx.
    now rewrite Hx, (IH Hw).
Qed.

Lemma occurrences_app c u v :
  occurrences c (u ++ v) = (occurrences c u + occurrences c v)%nat.
Proof. unfold occurrences. now rewrite List.filter_app, length_app. Qed.

Lemma occurrences_sep_free c w : sep_free c w = true -> occurrences c w = 0%nat.
Proof.
  unfold occurrences. induction w as [|x w IH]; simpl; [reflexivity|].
  intros [Hx Hw]%andb_prop. apply negb_true_iff in Hx.
  rewrite N.eqb_sym, Hx. now apply IH.
Qed.

Lemma word_ok_sep_free c w : word_ok c w = true -> sep_free c w = true.
Proof. destruct w; [discriminate | trivial]. Qed.

(** Joining separator-free words with a one-character separator can be
    undone by splitting. *)
Lemma split_on_join c (ws : list pystr) :
  ws <> [] -> Forall (fun w => word_ok c w = true) ws ->
  split_on c (join [c] ws) = ws
  /\ S (occurrences c (join [c] ws)) = List.length ws.
Proof.
  induction ws as [|w ws IH]; [congruence|]. intros _ Hall.
  apply Forall_cons_1 in Hall as [Hw Hws]. apply word_ok_sep_free in Hw.
  destruct ws as [|w2 ws'].
  - simpl. now rewrite split_on_sep_free, occurrences_sep_free.
  - destruct (IH ltac:(discriminate) Hws) as [IHs IHo].
    change (join [c] (w :: w2 :: ws'))
      with (w ++ c :: join [c] (w2 :: ws')).
    rewrite split_on_app, IHs by exact Hw. split; [reflexivity|].
    rewrite occurrences_app, occurrences_sep_free by exact Hw.
    change (c :: join [c] (w2 :: ws'))
      with ([c] ++ join [c] (w2 :: ws')).
    rewrite occurrences_app. unfold occurrences at 1. simpl List.filter.
    rewrite N.eqb_refl. simpl. simpl in IHo. lia.
Qed.

(** The words of a passphrase, before they are joined. *)
Lemma selected_words_spec (n : nat) (cap : bool) (s : rng) :
  exists ws s',
    replicateM n (choice word_list) s = Ok (ws, s')
    /\ List.length ws = n
    /\ Forall (fun w => word_ok 45%N w = true)
         (if cap then List.map capitalize ws else ws).
Proof.
  destruct (replicateM_spec (fun w => In w word_list) (choice word_list) n
              ltac:(intros t; apply choice_spec; discriminate) s)
    as (ws & s' & Hws & Hlen & Hin).
  exists ws, s'. repeat split; [exact Hws | exact Hlen |].
  pose proof word_list_ok as Hok. rewrite forallb_forall in Hok.
  destruct cap.
  - apply List.Forall_map. eapply List.Forall_impl; [|exact Hin].
    intros w Hw. now apply Hok, andb_prop in Hw.
  - eapply List.Forall_impl; [|exact Hin].
    intros w Hw. now apply Hok, andb_prop in Hw.
Qed.

Lemma generate_passphrase_returns
  (word_count : Z) (separator : pystr) (cap : bool) (s : rng) :
  3 <= word_count ->
  exists ws s',
    generate_passphrase word_count separator cap s
      = Ok (join separator ws, s')
    /\ List.length ws = Z.to_nat word_count
    /\ Forall (fun w => word_ok 45%N w = true) ws.
Proof.
  intros Hwc. unfold generate_passphrase.
  destruct (Z.ltb_spec word_count 3) as [?|_]; [lia|].
  destruct (selected_words_spec (Z.to_nat word_count) cap s)
    as (ws & s' & Hws & Hlen & Hok).
  exists (if cap then List.map capitalize ws else ws), s'.
  rewrite (bind_Ok _ _ _ _ _ Hws). split; [reflexivity|].
  split; [|exact Hok]. destruct cap; [rewrite length_map|]; exact Hlen.
Qed.

(** C8: [generate_passphrase] fails with [InvalidWordCount] exactly when
    [word_count] is below 3; for every [word_count] of at least 3 and the
    separator ["-"] it returns a string with exactly [word_count - 1]
    occurrences of ["-"], which splits into [word_count] nonempty
    segments. *)
Theorem generate_passphrase_spec
  (word_count : Z) (separator : pystr) (cap : bool) (s : rng) :
  (generate_passphrase word_count separator cap s = Raise InvalidWordCount
   <-> word_count < 3)
  /\ (3 <= word_count ->
      exists pp s',
        generate_passphrase word_count (str "-") cap s = Ok (pp, s')
        /\ Z.of_nat (occurrences 45%N pp) = word_count - 1
        /\ Z.of_nat (List.length (split_on 45%N pp)) = word_count
        /\ Forall (fun seg => seg <> []) (split_on 45%N pp)).
Proof.
  split.
  - split.
    + intros Hraise.
      destruct (Z.lt_ge_cases word_count 3) as [?|Hge]; [assumption|].
      destruct (generate_passphrase_returns word_count separator cap s Hge)
        as (ws & s' & Hok & _). congruence.
    + intros Hlt. unfold generate_passphrase.
      destruct (Z.ltb_spec word_count 3) as [_|?]; [reflexivity | lia].
  - intros Hge.
    destruct (generate_passphrase_returns word_count (str "-") cap s Hge)
      as (ws & s' & Hok & Hlen & Hwords).
    exists (join (str "-") ws), s'. split; [exact Hok|].
    assert (Hne : ws <> []) by (destruct ws; [simpl in Hlen; lia | discriminate]).
    destruct (split_on_join 45%N ws Hne Hwords) as [Hsplit Hocc].
    change [45%N] with (str "-") in Hsplit, Hocc.
    rewrite Hsplit. repeat split; [lia | lia |].
    eapply List.Forall_impl; [|exact Hwords].
    intros w Hw ->. discriminate.
Qed.

End GeneratorFacts.

(** ** Rounding *)

Module FloatFacts.
Local Open Scope Q_scope.

Lemma two_pow_pos (e : Z) : 0 < 2 ^ e.
Proof. now apply Qpower_0_lt. Qed.

Lemma two_pow_le (a b : Z) : (a <= b)%Z -> 2 ^ a <= 2 ^ b.
Proof. intros H. apply Qpower_le_compat_l; [exact H | discriminate]. Qed.

Lemma two_pow_plus (a b : Z) : 2 ^ (a + b) == 2 ^ a * 2 ^ b.
Proof. apply Qpower_plus. discriminate. Qed.

Lemma two_pow_inject (n : Z) : (0 <= n)%Z -> inject_Z (2 ^ n) == 2 ^ n.
Proof. intros H. now rewrite Zpower_Qpower. Qed.

(** *** Rounding to an integer *)

Lemma rhe_bounds (x : Q) : (Qfloor x <= rhe x <= Qfloor x + 1)%Z.
Proof.
  unfold rhe. destruct (x - inject_Z (Qfloor x) ?= 1 # 2);
    [destruct (Z.even (Qfloor x))| |]; lia.
Qed.

Lemma rhe_monotone (x y : Q) : x <= y -> (rhe x <= rhe y)%Z.
Proof.
  intros Hxy. pose proof (Qfloor_resp_le x y Hxy) as Hf.
  pose proof (rhe_bounds x) as Bx. pose proof (rhe_bounds y) as By.
  destruct (Z.eq_dec (Qfloor x) (Qfloor y)) as [E|NE]; [|lia].
  unfold rhe in *. rewrite <- E in *.
  destruct (Qcompare_spec (x - inject_Z (Qfloor x)) (1 # 2)) as [Hx|Hx|Hx];
  destruct (Qcompare_spec (y - inject_Z (Qfloor x)) (1 # 2)) as [Hy|Hy|Hy];
    try lia.
  - exfalso. apply (Qlt_irrefl (1 # 2)). rewrite <- Hx at 1.
    eapply Qle_lt_trans; [|exact Hy].
    apply Qplus_le_l with (z := inject_Z (Qfloor x)). now ring_simplify.
  - exfalso. apply (Qlt_irrefl (1 # 2)). rewrite <- Hy at 2.
    eapply Qlt_le_trans; [exact Hx|].
    apply Qplus_le_l with (z := inject_Z (Qfloor x)). now ring_simplify.
  - exfalso. apply (Qlt_irrefl (1 # 2)).
    eapply Qlt_trans; [exact Hx|]. eapply Qle_lt_trans; [|exact Hy].
    apply Qplus_le_l with (z := inject_Z (Qfloor x)). now ring_simplify.
Qed.

Lemma rhe_inject (n : Z) : rhe (inject_Z n) = n.
Proof.
  unfold rhe. rewrite Qfloor_Z.
  destruct (Qcompare_spec (inject_Z n - inject_Z n) (1 # 2)) as [H|H|H];
    [exfalso | reflexivity | exfalso].
  - assert (E : inject_Z n - inject_Z n == 0) by ring.
    rewrite E in H. discriminate.
  - assert (E : inject_Z n - inject_Z n == 0) by ring.
    rewrite E in H. discriminate.
Qed.

(** The model on known binary64 values: [0.1], [1/3], [float(2**53 + 1)]
    (a tie, to even), [round(2.675, 2)] and [round(0.125, 2)]. *)
Example RN_one_tenth : RN (1 # 10) = 3602879701896397 # 36028797018963968.
Proof. vm_compute. reflexivity. Qed.

Example RN_one_third : RN (1 # 3) = 6004799503160661 # 18014398509481984.
Proof. vm_compute. reflexivity. Qed.

Example float_of_int_tie : float_of_int (2 ^ 53 + 1) = inject_Z (2 ^ 53).
Proof. vm_compute. reflexivity. Qed.

Example round2_2675 :
  round2 (RN (2675 # 1000)) = RN (267 # 100).
Proof. vm_compute. reflexivity. Qed.

Example round2_eighth : round2 (1 # 8) = RN (12 # 100).
Proof. vm_compute. reflexivity. Qed.

(** *** The binary exponent *)

Lemma mag_rough (x : Q) :
  0 < x ->
  let k := (Z.log2 (Qnum x) - Z.log2 (Zpos (Qden x)))%Z in
  2 ^ (k - 1) <= x /\ x < 2 ^ (k + 1).
Proof.
  destruct x as [n d]. intros Hpos. cbn [Qnum Qden].
  assert (Hn : (0 < n)%Z).
  { unfold Qlt in Hpos. cbn in Hpos. lia. }
  set (a := Z.log2 n). set (b := Z.log2 (Zpos d)). cbv zeta.
  destruct (Z.log2_spec n Hn) as [Ha1 Ha2]. fold a in Ha1, Ha2.
  destruct (Z.log2_spec (Zpos d) eq_refl) as [Hb1 Hb2]. fold b in Hb1, Hb2.
  assert (Ha0 : (0 <= a)%Z) by apply Z.log2_nonneg.
  assert (Hb0 : (0 <= b)%Z) by apply Z.log2_nonneg.
  assert (Hx : (n # d) * inject_Z (Zpos d) == inject_Z n).
  { unfold Qeq, Qmult, inject_Z. cbn [Qnum Qden].
    rewrite Pos2Z.inj_mul. ring. }
  assert (Hxpos : 0 < n # d) by exact Hpos.
  split.
  - (* 2^(a-b-1) * 2^(b+1) = 2^a <= n = x * d <= x * 2^(b+1) *)
    apply Qmult_le_r with (z := 2 ^ (b + 1)); [apply two_pow_pos|].
    rewrite <- two_pow_plus.
    replace (a - b - 1 + (b + 1))%Z with a by ring.
    rewrite <- two_pow_inject by exact Ha0.
    apply Qle_trans with (inject_Z n).
    { rewrite <- Zle_Qle. exact Ha1. }
    rewrite <- Hx. rewrite (Qmult_comm (n # d)), (Qmult_comm (n # d)).
    apply Qmult_le_compat_r; [|now apply Qlt_le_weak].
    rewrite <- two_pow_inject by lia. rewrite <- Zle_Qle.
    unfold Z.succ in Hb2. lia.
  - (* x * 2^b <= x * d = n < 2^(a+1) = 2^(a-b+1) * 2^b *)
    apply Qmult_lt_r with (z := 2 ^ b); [apply two_pow_pos|].
    rewrite <- two_pow_plus.
    replace (a - b + 1 + b)%Z with (a + 1)%Z by ring.
    rewrite <- (two_pow_inject (a + 1)) by lia.
    apply Qle_lt_trans with (inject_Z n).
    { rewrite <- Hx. rewrite (Qmult_comm (n # d)), (Qmult_comm (n # d)).
      apply Qmult_le_compat_r; [|now apply Qlt_le_weak].
      rewrite <- two_pow_inject by exact Hb0. rewrite <- Zle_Qle.
      exact Hb1. }
    rewrite <- Zlt_Qlt. unfold Z.succ in Ha2. exact Ha2.
Qed.

(** [mag x] is the integer part of the binary logarithm of [x]. *)
Lemma mag_spec (x : Q) : 0 < x -> 2 ^ mag x <= x /\ x < 2 ^ (mag x + 1).
Proof.
  intros Hpos. destruct (mag_rough x Hpos) as [Hlo Hhi]. unfold mag.
  set (k := (Z.log2 (Qnum x) - Z.log2 (Zpos (Qden x)))%Z) in *.
  destruct (Qle_bool (2 ^ k) x) eqn:Hk.
  - apply Qle_bool_iff in Hk. now split.
  - split; [exact Hlo|].
    replace (k - 1 + 1)%Z with k by ring.
    apply Qnot_le_lt. intros Hle. apply Qle_bool_iff in Hle. congruence.
Qed.

Lemma mag_monotone (x y : Q) : 0 < x -> x <= y -> (mag x <= mag y)%Z.
Proof.
  intros Hx Hxy.
  assert (Hy : 0 < y) by (eapply Qlt_le_trans; eassumption).
  destruct (mag_spec x Hx) as [Hx1 _]. destruct (mag_spec y Hy) as [_ Hy2].
  assert (H : 2 ^ mag x < 2 ^ (mag y + 1)).
  { eapply Qle_lt_trans; [exact Hx1|].
    eapply Qle_lt_trans; [exact Hxy | exact Hy2]. }
  apply Qpower_lt_compat_l_inv in H; [lia | reflexivity].
Qed.

(** *** Rounding to binary64 *)

Lemma fexp_monotone (x y : Q) : 0 < x -> x <= y -> (fexp x <= fexp y)%Z.
Proof.
  intros Hx Hxy. pose proof (mag_monotone x y Hx Hxy). unfold fexp. lia.
Qed.

Lemma RN_pos_eq (x : Q) :
  RN_pos x == inject_Z (rhe (x * 2 ^ (- fexp x))) * 2 ^ fexp x.
Proof. apply Qred_correct. Qed.

Lemma scale_le (x : Q) (e k : Z) : x <= 2 ^ (e + k) -> x * 2 ^ (- e) <= 2 ^ k.
Proof.
  intros H. apply Qmult_le_r with (z := 2 ^ e); [apply two_pow_pos|].
  rewrite <- Qmult_assoc, <- !two_pow_plus.
  replace (- e + e)%Z with 0%Z by ring. rewrite Qmult_1_r.
  now rewrite Z.add_comm.
Qed.

Lemma scale_ge (x : Q) (e k : Z) : 2 ^ (e + k) <= x -> 2 ^ k <= x * 2 ^ (- e).
Proof.
  intros H. apply Qmult_le_r with (z := 2 ^ e); [apply two_pow_pos|].
  rewrite <- Qmult_assoc, <- !two_pow_plus.
  replace (- e + e)%Z with 0%Z by ring. rewrite Qmult_1_r.
  now rewrite Z.add_comm.
Qed.

(** A rounded value does not leave the binade of its argument. *)
Lemma RN_pos_upper (x : Q) : 0 < x -> RN_pos x <= 2 ^ (fexp x + 53).
Proof.
  intros Hx. destruct (mag_spec x Hx) as [_ Hhi]. rewrite RN_pos_eq.
  rewrite two_pow_plus, (Qmult_comm (2 ^ fexp x)).
  apply Qmult_le_compat_r; [|apply Qlt_le_weak, two_pow_pos].
  rewrite <- (two_pow_inject 53) by lia. rewrite <- Zle_Qle.
  rewrite <- (rhe_inject (2 ^ 53)). apply rhe_monotone.
  rewrite two_pow_inject by lia. apply scale_le.
  apply Qlt_le_weak. eapply Qlt_le_trans; [exact Hhi|].
  apply two_pow_le. unfold fexp. lia.
Qed.

Lemma RN_pos_lower (x : Q) :
  0 < x -> (-1074 <= mag x - 52)%Z -> 2 ^ mag x <= RN_pos x.
Proof.
  intros Hx Hnorm. destruct (mag_spec x Hx) as [Hlo _]. rewrite RN_pos_eq.
  assert (He : fexp x = (mag x - 52)%Z) by (unfold fexp; lia).
  replace (mag x) with (52 + fexp x)%Z at 1 by lia.
  rewrite two_pow_plus.
  apply Qmult_le_compat_r; [|apply Qlt_le_weak, two_pow_pos].
  rewrite <- (two_pow_inject 52) by lia. rewrite <- Zle_Qle.
  rewrite <- (rhe_inject (2 ^ 52)). apply rhe_monotone.
  rewrite two_pow_inject by lia. apply scale_ge.
  replace (fexp x + 52)%Z with (mag x) by lia. exact Hlo.
Qed.

Lemma RN_pos_nonneg (x : Q) : 0 < x -> 0 <= RN_pos x.
Proof.
  intros Hx. rewrite RN_pos_eq.
  apply Qmult_le_0_compat; [|apply Qlt_le_weak, two_pow_pos].
  change 0 with (inject_Z 0). rewrite <- Zle_Qle.
  rewrite <- (rhe_inject 0). apply rhe_monotone.
  apply Qmult_le_0_compat; apply Qlt_le_weak; [exact Hx | apply two_pow_pos].
Qed.

Lemma RN_pos_monotone (x y : Q) : 0 < x -> x <= y -> RN_pos x <= RN_pos y.
Proof.
  intros Hx Hxy.
  assert (Hy : 0 < y) by (eapply Qlt_le_trans; eassumption).
  pose proof (fexp_monotone x y Hx Hxy) as He.
  destruct (Z.eq_dec (fexp x) (fexp y)) as [E|NE].
  - rewrite !RN_pos_eq, E.
    apply Qmult_le_compat_r; [|apply Qlt_le_weak, two_pow_pos].
    rewrite <- Zle_Qle. apply rhe_monotone.
    apply Qmult_le_compat_r; [exact Hxy | apply Qlt_le_weak, two_pow_pos].
  - assert (Hnorm : (-1074 <= mag y - 52)%Z /\ (fexp x + 53 <= mag y)%Z).
    { unfold fexp in *. lia. }
    destruct Hnorm as [Hnorm Hgap].
    eapply Qle_trans; [apply RN_pos_upper, Hx|].
    eapply Qle_trans; [|apply RN_pos_lower; assumption].
    now apply two_pow_le.
Qed.

(** Rounding to the nearest binary64 is monotone. *)
Lemma RN_monotone (x y : Q) : x <= y -> RN x <= RN y.
Proof.
  intros Hxy. unfold RN.
  destruct (Qcompare_spec x 0) as [Hx|Hx|Hx];
  destruct (Qcompare_spec y 0) as [Hy|Hy|Hy].
  - apply Qle_refl.
  - exfalso. rewrite Hx in Hxy. now apply (Qlt_irrefl 0), (Qle_lt_trans _ y).
  - now apply RN_pos_nonneg.
  - apply Qopp_le_compat with (p := 0) (q := RN_pos (- x)).
    apply RN_pos_nonneg. now apply (Qopp_lt_compat x 0).
  - apply Qopp_le_compat. apply RN_pos_monotone.
    + now apply (Qopp_lt_compat y 0).
    + now apply Qopp_le_compat.
  - apply Qle_trans with 0.
    + apply Qopp_le_compat with (p := 0) (q := RN_pos (- x)).
      apply RN_pos_nonneg. now apply (Qopp_lt_compat x 0).
    + now apply RN_pos_nonneg.
  - exfalso. rewrite Hy in Hxy. now apply (Qlt_irrefl 0), (Qlt_le_trans _ x).
  - exfalso. apply (Qlt_irrefl 0).
    eapply Qlt_trans; [exact Hx|]. eapply Qle_lt_trans; eassumption.
  - now apply RN_pos_monotone.
Qed.

Lemma RN_nonneg (x : Q) : 0 <= x -> 0 <= RN x.
Proof. intros H. now apply (RN_monotone 0 x). Qed.

Lemma round2_monotone (x y : Q) : x <= y -> round2 x <= round2 y.
Proof.
  intros Hxy. unfold round2. apply RN_monotone.
  apply Qmult_le_compat_r; [|discriminate].
  rewrite <- Zle_Qle. apply rhe_monotone.
  apply Qmult_le_compat_r; [exact Hxy | discriminate].
Qed.

Lemma fmul_monotone_l (x y z : Q) : 0 <= z -> x <= y -> fmul x z <= fmul y z.
Proof.
  intros Hz Hxy. unfold fmul. apply RN_monotone.
  now apply Qmult_le_compat_r.
Qed.

Lemma fmul_monotone_r (x y z : Q) : 0 <= z -> x <= y -> fmul z x <= fmul z y.
Proof.
  intros Hz Hxy. unfold fmul. apply RN_monotone.
  rewrite !(Qmult_comm z). now apply Qmult_le_compat_r.
Qed.

Lemma float_of_int_monotone (n m : Z) :
  (n <= m)%Z -> float_of_int n <= float_of_int m.
Proof.
  intros H. unfold float_of_int. apply RN_monotone. now rewrite <- Zle_Qle.
Qed.

End FloatFacts.

(** ** The strength checker *)

Module CheckerFacts.
Import PasswordStrengthChecker.

(** The nested conditionals of [_determine_strength] are the band table of
    the specification. *)
Lemma _determine_strength_bands (score : Z) (entropy : pyfloat) :
  _determine_strength score entropy = spec_strength score entropy.
Proof. reflexivity. Qed.

(** Clamping the score at 0 would not move a password to another band. *)
Lemma _determine_strength_clamp (score : Z) (entropy : pyfloat) :
  _determine_strength (Z.max 0 score) entropy
  = _determine_strength score entropy.
Proof.
  unfold _determine_strength.
  repeat match goal with
         | |- context [(?a <=? ?b)] =>
           destruct (Z.leb_spec a b); try lia
         end; reflexivity.
Qed.

Section Runtime.
Variable re_digit : codepoint -> bool.
Variable str_lower : pystr -> pystr.
Variable math_log2 : Z -> pyfloat.
Variable libm_pow2 : pyfloat -> pyfloat.

Local Abbreviation check_strength :=
  (check_strength re_digit str_lower math_log2 libm_pow2).
Local Abbreviation total_score := (total_score re_digit str_lower).
Local Abbreviation _calculate_entropy := (_calculate_entropy re_digit math_log2).
Local Abbreviation _check_patterns := (_check_patterns str_lower).
Local Abbreviation _check_sequences := (_check_sequences str_lower).
Local Abbreviation all_feedback := (all_feedback re_digit str_lower).

Lemma _check_patterns_nonpos pw : fst (_check_patterns pw) <= 0.
Proof.
  unfold PasswordStrengthChecker._check_patterns.
  destruct (bool_decide _); destruct (first_match _ _); simpl; lia.
Qed.

Lemma _check_sequences_nonpos pw : fst (_check_sequences pw) <= 0.
Proof.
  unfold PasswordStrengthChecker._check_sequences.
  destruct (has_repeat3 _); destruct (first_match _ _); simpl; lia.
Qed.

(** What [check_strength] returns on the general path, field by field. *)
Lemma check_strength_fields pw r :
  pw <> [] -> check_strength pw = Ok r ->
  password r = pw
  /\ strength r = _determine_strength (total_score pw) (_calculate_entropy pw)
  /\ score r = Z.max 0 (total_score pw)
  /\ entropy r = _calculate_entropy pw
  /\ feedback r = match all_feedback pw with
                  | [] => ["Password meets security requirements"%string]
                  | _ :: _ => all_feedback pw
                  end.
Proof.
  intros Hne. destruct pw as [|c pw']; [congruence|].
  unfold PasswordStrengthChecker.check_strength,
    PasswordStrengthChecker.total_score,
    PasswordStrengthChecker.all_feedback.
  destruct (_check_length (c :: pw')) as [ls lf].
  destruct (_check_character_variety re_digit (c :: pw')) as [vs vf].
  destruct (_check_patterns (c :: pw')) as [ps pf].
  destruct (_check_sequences (c :: pw')) as [qs qf].
  destruct (_estimate_crack_time libm_pow2 _) as [t|e]; [|discriminate].
  intros [= <-]. simpl. repeat split; f_equal; lia.
Qed.

Lemma check_strength_returns pw :
  (_calculate_entropy pw < 1024)%Q -> exists r, check_strength pw = Ok r.
Proof.
  intros Hlt. destruct pw as [|c pw']; [eexists; reflexivity|].
  unfold PasswordStrengthChecker.check_strength.
  destruct (_check_length (c :: pw')) as [ls lf].
  destruct (_check_character_variety re_digit (c :: pw')) as [vs vf].
  destruct (_check_patterns (c :: pw')) as [ps pf].
  destruct (_check_sequences (c :: pw')) as [qs qf].
  unfold _estimate_crack_time, pow2.
  destruct (Qle_bool 1024 _) eqn:Hle; [|eexists; reflexivity].
  apply Qle_bool_iff in Hle. exfalso.
  apply (Qlt_irrefl 1024). eapply Qle_lt_trans; eassumption.
Qed.

(** [check_strength] raises exactly when the entropy reaches 1024 bits,
    where [2 ** entropy] overflows. *)
Lemma check_strength_raises pw :
  check_strength pw = Raise OverflowError
  <-> (1024 <= _calculate_entropy pw)%Q.
Proof.
  destruct pw as [|c pw'].
  - simpl. split; [discriminate|]. intros H. now apply Qle_bool_iff in H.
  - unfold PasswordStrengthChecker.check_strength.
    destruct (_check_length (c :: pw')) as [ls lf].
    destruct (_check_character_variety re_digit (c :: pw')) as [vs vf].
    destruct (_check_patterns (c :: pw')) as [ps pf].
    destruct (_check_sequences (c :: pw')) as [qs qf].
    unfold _estimate_crack_time, pow2. rewrite <- Qle_bool_iff.
    destruct (Qle_bool 1024 _); split; congruence.
Qed.

Lemma total_score_empty : total_score [] <= 0.
Proof.
  unfold PasswordStrengthChecker.total_score.
  pose proof (_check_patterns_nonpos []).
  pose proof (_check_sequences_nonpos []).
  change (fst (_check_length [])) with (-2).
  change (fst (_check_character_variety re_digit [])) with 0. lia.
Qed.

(** C2: the level of every analysed password is the first band of the
    specification's table (a score ceiling or an entropy floor, in
    ascending order) that holds of the unclamped sum of the four checks
    and of the entropy; the returned score is that sum clamped at 0. *)
Theorem strength_from_unclamped_total (pw : pystr) (r : PasswordAnalysis) :
  check_strength pw = Ok r ->
  strength r = spec_strength (total_score pw) (_calculate_entropy pw)
  /\ score r = Z.max 0 (total_score pw).
Proof.
  intros Hr. destruct pw as [|c pw'].
  - pose proof total_score_empty as Hneg.
    injection Hr as <-. simpl strength. simpl score.
    split; [|lia]. unfold spec_strength, spec_bands, first_band.
    destruct (Z.leb_spec (total_score []) 0); [reflexivity | lia].
  - destruct (check_strength_fields (c :: pw') r ltac:(discriminate) Hr)
      as (_ & Hs & Hsc & _).
    now rewrite Hs, Hsc, _determine_strength_bands.
Qed.

(** C3: the score of every returned analysis is at least 0, also when the
    four checks sum to a negative number. *)
Theorem score_nonnegative (pw : pystr) (r : PasswordAnalysis) :
  check_strength pw = Ok r -> 0 <= score r.
Proof.
  intros Hr. destruct pw as [|c pw'].
  - injection Hr as <-. simpl. lia.
  - destruct (check_strength_fields (c :: pw') r ltac:(discriminate) Hr)
      as (_ & _ & Hsc & _).
    rewrite Hsc. lia.
Qed.

(** The empty password takes the early exit. *)
Lemma check_strength_empty :
  check_strength [] =
  Ok {| password := [];
        strength := VERY_WEAK;
        score := 0;
        entropy := 0%Q;
        feedback := ["Password cannot be empty"%string];
        time_to_crack := "Instant" |}.
Proof. reflexivity. Qed.

(** *** Entropy *)

Lemma charset_size_of_range pw :
  charset_size_of re_digit pw = 0
  \/ 1 <= charset_size_of re_digit pw <= 94.
Proof.
  unfold charset_size_of.
  destruct (has_lower pw), (has_upper pw), (has_digit re_digit pw),
    (has_symbol pw); simpl; lia.
Qed.

Lemma charset_size_of_classes p q :
  has_lower p = has_lower q -> has_upper p = has_upper q ->
  has_digit re_digit p = has_digit re_digit q ->
  has_symbol p = has_symbol q ->
  charset_size_of re_digit p = charset_size_of re_digit q.
Proof. unfold charset_size_of. now intros -> -> -> ->. Qed.

(** C5: of two passwords made of the same character classes, the one
    that is no longer has no more entropy. *)
Theorem entropy_monotone_in_length (p q : pystr) :
  (forall n : Z, 1 <= n -> (0 <= math_log2 n)%Q) ->
  has_lower p = has_lower q -> has_upper p = has_upper q ->
  has_digit re_digit p = has_digit re_digit q ->
  has_symbol p = has_symbol q ->
  (List.length p <= List.length q)%nat ->
  (_calculate_entropy p <= _calculate_entropy q)%Q.
Proof.
  intros Hlog Hl Hu Hd Hs Hlen.
  unfold PasswordStrengthChecker._calculate_entropy.
  rewrite <- (charset_size_of_classes p q Hl Hu Hd Hs).
  destruct (charset_size_of_range p) as [E|R].
  - rewrite E. simpl. apply Qle_refl.
  - destruct (Z.eqb_spec (charset_size_of re_digit p) 0) as [?|_]; [lia|].
    apply FloatFacts.round2_monotone, FloatFacts.fmul_monotone_l.
    + apply Hlog. lia.
    + apply FloatFacts.float_of_int_monotone. lia.
Qed.

(** With a logarithm of at most 7, the entropy is at most 7 bits a
    character. *)
Lemma _calculate_entropy_bound pw :
  (forall n : Z, 1 <= n <= 94 -> (0 <= math_log2 n <= 7)%Q) ->
  (_calculate_entropy pw
   <= round2 (fmul (float_of_int (Z.of_nat (List.length pw))) 7))%Q.
Proof.
  intros Hlog. unfold PasswordStrengthChecker._calculate_entropy.
  destruct (charset_size_of_range pw) as [E|R].
  - rewrite E. simpl.
    change 0%Q with (round2 (fmul 0%Q 7%Q)) at 1.
    apply FloatFacts.round2_monotone, FloatFacts.fmul_monotone_l;
      [discriminate|].
    apply FloatFacts.RN_nonneg. change 0%Q with (inject_Z 0).
    rewrite <- Zle_Qle. lia.
  - destruct (Z.eqb_spec (charset_size_of re_digit pw) 0) as [?|_]; [lia|].
    apply FloatFacts.round2_monotone, FloatFacts.fmul_monotone_r.
    + apply FloatFacts.RN_nonneg. change 0%Q with (inject_Z 0).
      rewrite <- Zle_Qle. lia.
    + now apply Hlog.
Qed.

(** C9: the analysis of ["password"] returns, flags it as a commonly used
    password and rates it [VERY_WEAK]. *)
Theorem common_password_very_weak :
  str_lower (str "password") = str "password" ->
  (forall n : Z, 1 <= n <= 94 -> (0 <= math_log2 n <= 7)%Q) ->
  exists r,
    check_strength (str "password") = Ok r
    /\ In "This is a commonly used password - avoid it"%string (feedback r)
    /\ strength r = VERY_WEAK.
Proof.
  intros Hlower Hlog.
  destruct (check_strength_returns (str "password")) as [r Hr].
  { eapply Qle_lt_trans; [apply _calculate_entropy_bound, Hlog|].
    vm_compute. reflexivity. }
  exists r. split; [exact Hr|].
  destruct (check_strength_fields (str "password") r ltac:(discriminate) Hr)
    as (_ & Hs & _ & _ & Hf).
  assert (Hpat : _check_patterns (str "password")
                 = (-5, ["This is a commonly used password - avoid it"%string])).
  { unfold PasswordStrengthChecker._check_patterns. rewrite Hlower.
    vm_compute. reflexivity. }
  assert (Hseq : _check_sequences (str "password") = (0, [])).
  { unfold PasswordStrengthChecker._check_sequences. rewrite Hlower.
    vm_compute. reflexivity. }
  split.
  - rewrite Hf. unfold PasswordStrengthChecker.all_feedback.
    rewrite Hpat, Hseq. cbn [snd]. rewrite app_nil_r.
    set (fb := (_ ++ _) ++ _).
    assert (Hin : In "This is a commonly used password - avoid it"%string fb).
    { unfold fb. apply in_or_app. right. now left. }
    destruct fb; [destruct Hin | exact Hin].
  - rewrite Hs. unfold PasswordStrengthChecker.total_score.
    rewrite Hpat, Hseq. cbn [fst].
    unfold _check_character_variety.
    change (has_lower (str "password")) with true.
    change (has_upper (str "password")) with false.
    change (has_symbol (str "password")) with false.
    change (fst (_check_length (str "password"))) with 1.
    unfold _determine_strength.
    destruct (has_digit re_digit (str "password")); reflexivity.
Qed.

End Runtime.

(** The reference runtime satisfies the assumptions made on the
    logarithm. *)
Lemma Reference_math_log2_range (n : Z) :
  (0 <= Reference.math_log2 n <= 7)%Q.
Proof.
  destruct n as [|p|p]; [split; discriminate | | split; discriminate].
  do 7 (destruct p as [p|p|]; try (split; discriminate)).
Qed.

Lemma entropy_monotone_in_length_witness :
  (_calculate_entropy Reference.re_digit Reference.math_log2 (str "abc1")
   <= _calculate_entropy Reference.re_digit Reference.math_log2
        (str "x9yzw"))%Q.
Proof.
  apply (entropy_monotone_in_length Reference.re_digit Reference.math_log2
           (str "abc1") (str "x9yzw"));
    [ intros n _; apply Reference_math_log2_range
    | reflexivity | reflexivity | reflexivity | reflexivity
    | vm_compute; lia ].
Defined.

Lemma common_password_very_weak_witness :
  exists r,
    Reference.check_strength_ref (str "password") = Ok r
    /\ In "This is a commonly used password - avoid it"%string (feedback r)
    /\ strength r = VERY_WEAK.
Proof.
  apply (common_password_very_weak Reference.re_digit Reference.str_lower
           Reference.math_log2 Reference.libm_pow2);
    [ reflexivity | intros n _; apply Reference_math_log2_range ].
Defined.

Lemma strength_from_unclamped_total_witness :
  exists r,
    Reference.check_strength_ref (str "Tr0ub4dor&3") = Ok r
    /\ strength r
       = spec_strength
           (total_score Reference.re_digit Reference.str_lower
              (str "Tr0ub4dor&3"))
           (_calculate_entropy Reference.re_digit Reference.math_log2
              (str "Tr0ub4dor&3"))
    /\ score r
       = Z.max 0 (total_score Reference.re_digit Reference.str_lower
                    (str "Tr0ub4dor&3")).
Proof.
  eexists. split; [vm_compute; reflexivity|].
  apply (strength_from_unclamped_total
           Reference.re_digit Reference.str_lower Reference.math_log2
           Reference.libm_pow2 (str "Tr0ub4dor&3")).
  vm_compute. reflexivity.
Defined.

Lemma score_nonnegative_witness :
  exists r,
    Reference.check_strength_ref (str "password") = Ok r
    /\ total_score Reference.re_digit Reference.str_lower (str "password")
       = -3
    /\ 0 <= score r.
Proof.
  eexists. split; [vm_compute; reflexivity|]. split; [reflexivity|].
  apply (score_nonnegative
           Reference.re_digit Reference.str_lower Reference.math_log2
           Reference.libm_pow2 (str "password")).
  vm_compute. reflexivity.
Defined.

(** C4 (where the code departs from it): on a password of 205 symbols the
    entropy is 1025 bits, [2 ** entropy] overflows and [check_strength]
    raises [OverflowError] instead of returning an analysis. *)
Theorem check_strength_overflow :
  _calculate_entropy Reference.re_digit Reference.math_log2
    (List.repeat 33%N 205) = 1025%Q
  /\ Reference.check_strength_ref (List.repeat 33%N 205) = Raise OverflowError.
Proof. split; vm_compute; reflexivity. Qed.

(** The same on 218 lowercase letters: 1024.7 bits. *)
Example check_strength_overflow_letters :
  Reference.check_strength_ref (List.repeat 97%N 218) = Raise OverflowError.
Proof. vm_compute. reflexivity. Qed.

(** One letter fewer is analysed: 1020 bits. *)
Example check_strength_217_letters :
  exists r, Reference.check_strength_ref (List.repeat 97%N 217) = Ok r
            /\ entropy r = 1020%Q /\ strength r = WEAK.
Proof. eexists. vm_compute. repeat split. Qed.

End CheckerFacts.

(** ** More on the generator *)

Module GeneratorMore.
Import PasswordGenerator GeneratorFacts.

Lemma append_choice_within (flag : bool) cls (charset pw : pystr) s :
  cls <> [] -> (flag = true -> incl cls charset) ->
  Forall (fun c => In c charset) pw ->
  exists pw' s',
    append_choice flag cls pw s = Ok (pw', s')
    /\ Forall (fun c => In c charset) pw'.
Proof.
  intros Hcls Hincl Hpw. destruct flag; simpl.
  - destruct (choice_spec cls s Hcls) as (c & s' & Hc & Hin).
    exists (pw ++ [c]), s'. rewrite (bind_Ok _ _ _ _ _ Hc).
    split; [reflexivity|]. apply Forall_app. split; [exact Hpw|].
    constructor; [|constructor]. now apply Hincl.
  - now exists pw, s.
Qed.

Lemma class_in_charset lo up di sy :
  (lo = true -> incl lowercase (build_charset lo up di sy))
  /\ (up = true -> incl uppercase (build_charset lo up di sy))
  /\ (di = true -> incl digits (build_charset lo up di sy))
  /\ (sy = true -> incl symbols (build_charset lo up di sy)).
Proof.
  unfold build_charset, incl.
  repeat split; intros Hf c Hc; destruct lo, up, di, sy;
    try discriminate Hf; cbv zeta; rewrite ?in_app_iff; tauto.
Qed.

Lemma generate_Ok_valid length lo up di sy s pw s' :
  generate length lo up di sy s = Ok (pw, s') ->
  8 <= length /\ lo || up || di || sy = true.
Proof.
  intros Hok. destruct (Z.lt_ge_cases length 8) as [Hlt|Hge].
  { rewrite (generate_short _ lo up di sy s Hlt) in Hok. discriminate. }
  split; [exact Hge|]. destruct (lo || up || di || sy) eqn:Hf; [reflexivity|].
  rewrite (generate_no_charset _ _ _ _ _ s Hge Hf) in Hok. discriminate.
Qed.

(** X1: [generate] never emits a character outside the union of the
    selected classes. *)
Theorem generate_within_charset length lo up di sy s pw s' :
  generate length lo up di sy s = Ok (pw, s') ->
  Forall (fun c => In c (build_charset lo up di sy)) pw.
Proof.
  intros Hok. destruct (generate_Ok_valid _ _ _ _ _ _ _ _ Hok) as [Hlen Hflags].
  revert Hok. unfold generate.
  destruct (Z.ltb_spec length 8) as [?|_]; [lia|].
  destruct (class_in_charset lo up di sy) as (I1 & I2 & I3 & I4).
  set (charset := build_charset lo up di sy) in *.
  destruct charset as [|c0 cs] eqn:Hcs; [discriminate|].
  rewrite <- Hcs in *. clear Hcs.
  assert (Hne : charset <> []).
  { intros E. apply build_charset_nil in E. congruence. }
  destruct (append_choice_within lo lowercase charset [] s)
    as (p1 & s1 & H1 & F1); [discriminate | exact I1 | constructor|].
  destruct (append_choice_within up uppercase charset p1 s1)
    as (p2 & s2 & H2 & F2); [discriminate | exact I2 | exact F1|].
  destruct (append_choice_within di digits charset p2 s2)
    as (p3 & s3 & H3 & F3); [discriminate | exact I3 | exact F2|].
  destruct (append_choice_within sy symbols charset p3 s3)
    as (p4 & s4 & H4 & F4); [discriminate | exact I4 | exact F3|].
  destruct (replicateM_spec (fun c => In c charset) (choice charset)
              (Z.to_nat (length - Z.of_nat (List.length p4)))
              ltac:(intros t; now apply choice_spec) s4)
    as (rest & s5 & Hrest & _ & Frest).
  destruct (shuffle_spec (p4 ++ rest) s5) as (pw0 & s6 & Hsh & Hperm).
  rewrite (bind_Ok _ _ _ _ _ H1), (bind_Ok _ _ _ _ _ H2),
    (bind_Ok _ _ _ _ _ H3), (bind_Ok _ _ _ _ _ H4).
  cbv zeta. rewrite (bind_Ok _ _ _ _ _ Hrest), Hsh.
  intros [= <- <-]. rewrite Hperm. apply Forall_app. now split.
Qed.

Lemma generate_within_charset_witness :
  exists pw s',
    generate 12 true false true false (fun n => (7 * n + 3)%nat) = Ok (pw, s')
    /\ Forall (fun c => In c (build_charset true false true false)) pw.
Proof.
  eexists. eexists. split; [vm_compute; reflexivity|].
  eapply (generate_within_charset 12 true false true false
            (fun n => (7 * n + 3)%nat)).
  vm_compute. reflexivity.
Defined.

(** X2: the classes are pairwise disjoint: the union charset repeats no
    character, so a uniform draw from it favours none, and its size is the
    sum of the sizes of the selected classes (88 at most). *)
Theorem build_charset_distinct lo up di sy :
  NoDup (build_charset lo up di sy)
  /\ Z.of_nat (List.length (build_charset lo up di sy))
     = (if lo then 26 else 0) + (if up then 26 else 0)
       + (if di then 10 else 0) + (if sy then 26 else 0).
Proof.
  destruct lo, up, di, sy;
    (split; [apply (bool_decide_unpack _); vm_compute; exact I | reflexivity]).
Qed.

(** X3: [generate_pin] validates nothing and never fails: it returns
    [length] decimal digits, and the empty string for a length of 0 or
    less. *)
Theorem generate_pin_digits (length : Z) (s : rng) :
  exists pin s',
    generate_pin length s = Ok (pin, s')
    /\ Z.of_nat (List.length pin) = Z.max 0 length
    /\ Forall (fun c => in_0_9 c = true) pin.
Proof.
  destruct (replicateM_spec (fun c => in_0_9 c = true) (choice digits)
              (Z.to_nat length)) with (s := s)
    as (pin & s' & Hpin & Hlen & Hall).
  { intros t. destruct (choice_spec digits t) as (c & t' & Hc & Hin);
      [discriminate|].
    exists c, t'. split; [exact Hc|].
    assert (Hd : forallb in_0_9 digits = true) by reflexivity.
    rewrite forallb_forall in Hd. now apply Hd. }
  exists pin, s'. unfold generate_pin.
  split; [exact Hpin|]. split; [|exact Hall].
  replace (Z.max 0 length) with (Z.of_nat (Z.to_nat length)) by lia.
  f_equal. exact Hlen.
Qed.

(** X4: [generate_multiple] on valid parameters returns [count]
    passwords, each of the requested length and covering every selected
    class. *)
Theorem generate_multiple_valid (count length : Z) (lo up di sy : bool)
  (s : rng) :
  8 <= length -> lo || up || di || sy = true ->
  exists pws s',
    generate_multiple count length lo up di sy s = Ok (pws, s')
    /\ Z.of_nat (List.length pws) = Z.max 0 count
    /\ Forall (fun pw =>
                 Z.of_nat (List.length pw) = length
                 /\ (lo = true -> has_char_of lowercase pw = true)
                 /\ (up = true -> has_char_of uppercase pw = true)
                 /\ (di = true -> has_char_of digits pw = true)
                 /\ (sy = true -> has_char_of symbols pw = true)) pws.
Proof.
  intros Hlen Hflags. unfold generate_multiple.
  edestruct (replicateM_spec
              (fun pw =>
                 Z.of_nat (List.length pw) = length
                 /\ (lo = true -> has_char_of lowercase pw = true)
                 /\ (up = true -> has_char_of uppercase pw = true)
                 /\ (di = true -> has_char_of digits pw = true)
                 /\ (sy = true -> has_char_of symbols pw = true))
              (generate length lo up di sy) (Z.to_nat count))
    with (s := s) as (pws & s' & Hpws & Hn & Hall).
  { intros t.
    destruct (generate_valid length lo up di sy t Hlen Hflags)
      as (pw & t' & Hok & Hrest). eauto. }
  exists pws, s'. split; [exact Hpws|]. split; [|exact Hall].
  replace (Z.max 0 count) with (Z.of_nat (Z.to_nat count)) by lia.
  f_equal. exact Hn.
Qed.

Lemma generate_multiple_valid_witness :
  exists pws s',
    generate_multiple 5 16 true true true true (fun n => n) = Ok (pws, s')
    /\ Z.of_nat (List.length pws) = Z.max 0 5
    /\ Forall (fun pw =>
                 Z.of_nat (List.length pw) = 16
                 /\ (true = true -> has_char_of lowercase pw = true)
                 /\ (true = true -> has_char_of uppercase pw = true)
                 /\ (true = true -> has_char_of digits pw = true)
                 /\ (true = true -> has_char_of symbols pw = true)) pws.
Proof.
  apply (generate_multiple_valid 5 16 true true true true (fun n => n));
    [lia | reflexivity].
Defined.

Lemma replicateM_Raise {B} (m : M B) (n : nat) s e :
  m s = Raise e -> replicateM (S n) m s = Raise e.
Proof. intros H. simpl. unfold bind. now rewrite H. Qed.

(** X5: [generate_multiple] validates only through its calls to
    [generate]: a count of 0 or less returns the empty list whatever the
    other parameters are, and a count of at least 1 fails as the first
    call does. *)
Theorem generate_multiple_errors (count length : Z) (lo up di sy : bool)
  (s : rng) :
  (count <= 0 -> generate_multiple count length lo up di sy s = Ok ([], s))
  /\ (1 <= count -> length < 8 ->
      generate_multiple count length lo up di sy s = Raise InvalidLength)
  /\ (1 <= count -> 8 <= length -> lo || up || di || sy = false ->
      generate_multiple count length lo up di sy s
      = Raise NoCharsetSelected).
Proof.
  unfold generate_multiple. repeat split.
  - intros Hc. replace (Z.to_nat count) with 0%nat by lia. reflexivity.
  - intros Hc Hl.
    replace (Z.to_nat count) with (S (Z.to_nat (count - 1))) by lia.
    now apply replicateM_Raise, generate_short.
  - intros Hc Hl Hf.
    replace (Z.to_nat count) with (S (Z.to_nat (count - 1))) by lia.
    now apply replicateM_Raise, generate_no_charset.
Qed.

(** *** Passphrases *)

Lemma generate_passphrase_words
  (word_count : Z) (separator : pystr) (cap : bool) (s : rng) :
  3 <= word_count ->
  exists ws s',
    generate_passphrase word_count separator cap s
      = Ok (join separator ws, s')
    /\ List.length ws = Z.to_nat word_count
    /\ Forall (fun w =>
                 In w (if cap then List.map capitalize word_list
                       else word_list)) ws.
Proof.
  intros Hwc. unfold generate_passphrase.
  destruct (Z.ltb_spec word_count 3) as [?|_]; [lia|].
  destruct (replicateM_spec (fun w => In w word_list) (choice word_list)
              (Z.to_nat word_count)
              ltac:(intros t; apply choice_spec; discriminate) s)
    as (ws & s' & Hws & Hlen & Hin).
  exists (if cap then List.map capitalize ws else ws), s'.
  rewrite (bind_Ok _ _ _ _ _ Hws). split; [reflexivity|].
  destruct cap.
  - split; [now rewrite length_map|].
    apply List.Forall_map. eapply List.Forall_impl; [|exact Hin].
    intros w Hw. now apply in_map.
  - now split.
Qed.

Lemma selectable_word_ok (cap : bool) (w : pystr) :
  In w (if cap then List.map capitalize word_list else word_list) ->
  word_ok 45%N w = true /\ (5 <= List.length w <= 11)%nat.
Proof.
  assert (H : forallb (fun w => word_ok 45%N w
                                && (5 <=? List.length w)%nat
                                && (List.length w <=? 11)%nat)
                (if cap then List.map capitalize word_list else word_list)
              = true) by (destruct cap; vm_compute; reflexivity).
  rewrite forallb_forall in H. intros Hw. apply H in Hw.
  apply andb_prop in Hw as [Hw H11]. apply andb_prop in Hw as [Hw H5].
  apply Nat.leb_le in H5, H11. now split.
Qed.

(** X6: split at the dashes, a passphrase gives back words of the word
    list, or their capitalised forms when capitalisation is asked for. *)
Theorem generate_passphrase_segments (word_count : Z) (cap : bool) (s : rng) :
  3 <= word_count ->
  exists pp s',
    generate_passphrase word_count (str "-") cap s = Ok (pp, s')
    /\ Forall (fun seg =>
                 In seg (if cap then List.map capitalize word_list
                         else word_list)) (split_on 45%N pp).
Proof.
  intros Hwc.
  destruct (generate_passphrase_words word_count (str "-") cap s Hwc)
    as (ws & s' & Hok & Hlen & Hin).
  exists (join (str "-") ws), s'. split; [exact Hok|].
  assert (Hne : ws <> []) by (destruct ws; [simpl in Hlen; lia | discriminate]).
  assert (Hwords : Forall (fun w => word_ok 45%N w = true) ws).
  { eapply List.Forall_impl; [|exact Hin].
    intros w Hw. now apply (selectable_word_ok cap). }
  destruct (split_on_join 45%N ws Hne Hwords) as [Hsplit _].
  change [45%N] with (str "-") in Hsplit. now rewrite Hsplit.
Qed.

Lemma generate_passphrase_segments_witness :
  exists pp s',
    generate_passphrase 4 (str "-") true (fun n => (5 * n + 1)%nat)
    = Ok (pp, s')
    /\ Forall (fun seg => In seg (List.map capitalize word_list))
         (split_on 45%N pp).
Proof.
  apply (generate_passphrase_segments 4 true (fun n => (5 * n + 1)%nat)).
  lia.
Defined.

Lemma join_length_bounds (separator : pystr) (ws : list pystr) :
  ws <> [] ->
  Forall (fun w => (5 <= List.length w <= 11)%nat) ws ->
  let n := Z.of_nat (List.length ws) in
  let k := Z.of_nat (List.length separator) in
  5 * n + (n - 1) * k <= Z.of_nat (List.length (join separator ws))
  <= 11 * n + (n - 1) * k.
Proof.
  induction ws as [|w ws IH]; [congruence|]. intros _ Hall.
  apply Forall_cons_1 in Hall as [Hw Hws].
  destruct ws as [|w2 ws'].
  - simpl. lia.
  - specialize (IH ltac:(discriminate) Hws). cbv zeta in IH |- *.
    change (join separator (w :: w2 :: ws'))
      with (w ++ separator ++ join separator (w2 :: ws')).
    rewrite !length_app.
    change (List.length (w :: w2 :: ws'))
      with (S (List.length (w2 :: ws'))).
    set (J := List.length (join separator (w2 :: ws'))) in *.
    set (m := List.length (w2 :: ws')) in *.
    nia.
Qed.

(** X7: a passphrase of [word_count] words is between
    [5 * word_count] and [11 * word_count] characters long, not counting
    the [word_count - 1] separators. *)
Theorem generate_passphrase_length
  (word_count : Z) (separator : pystr) (cap : bool) (s : rng) :
  3 <= word_count ->
  exists pp s',
    generate_passphrase word_count separator cap s = Ok (pp, s')
    /\ 5 * word_count
       <= Z.of_nat (List.length pp)
          - (word_count - 1) * Z.of_nat (List.length separator)
       <= 11 * word_count.
Proof.
  intros Hwc.
  destruct (generate_passphrase_words word_count separator cap s Hwc)
    as (ws & s' & Hok & Hlen & Hin).
  exists (join separator ws), s'. split; [exact Hok|].
  assert (Hne : ws <> []) by (destruct ws; [simpl in Hlen; lia | discriminate]).
  assert (Hwords : Forall (fun w => (5 <= List.length w <= 11)%nat) ws).
  { eapply List.Forall_impl; [|exact Hin].
    intros w Hw. now apply (selectable_word_ok cap). }
  pose proof (join_length_bounds separator ws Hne Hwords) as Hb.
  cbv zeta in Hb. rewrite Hlen in Hb.
  replace (Z.of_nat (Z.to_nat word_count)) with word_count in Hb by lia.
  lia.
Qed.

Lemma generate_passphrase_length_witness :
  exists pp s',
    generate_passphrase 4 (str ", ") false (fun n => n) = Ok (pp, s')
    /\ 5 * 4
       <= Z.of_nat (List.length pp)
          - (4 - 1) * Z.of_nat (List.length (str ", "))
       <= 11 * 4.
Proof.
  apply (generate_passphrase_length 4 (str ", ") false (fun n => n)). lia.
Defined.

End GeneratorMore.

(** ** More on the strength checker *)

Module CheckerMore.
Import PasswordStrengthChecker CheckerFacts.

Lemma band_condition_monotone (s1 s2 ceiling : Z) (e1 e2 floor : Q) :
  s1 <= s2 -> (e1 <= e2)%Q ->
  (s2 <=? ceiling) || Qltb e2 floor = true ->
  (s1 <=? ceiling) || Qltb e1 floor = true.
Proof.
  intros Hs He H. apply orb_true_iff in H. apply orb_true_iff.
  destruct H as [H|H].
  - left. apply Z.leb_le in H. apply Z.leb_le. lia.
  - right. unfold Qltb in *. apply negb_true_iff in H. apply negb_true_iff.
    destruct (Qle_bool floor e1) eqn:E; [|reflexivity].
    apply Qle_bool_iff in E.
    assert (Hle : Qle_bool floor e2 = true).
    { apply Qle_bool_iff. eapply Qle_trans; eassumption. }
    congruence.
Qed.

(** X8: a higher score together with a higher entropy never gives a
    lower strength level. *)
Theorem _determine_strength_monotone (s1 s2 : Z) (e1 e2 : pyfloat) :
  s1 <= s2 -> (e1 <= e2)%Q ->
  StrengthLevel_value (_determine_strength s1 e1)
  <= StrengthLevel_value (_determine_strength s2 e2).
Proof.
  intros Hs He. unfold _determine_strength.
  pose proof (band_condition_monotone s1 s2 0 e1 e2 28 Hs He) as H0.
  pose proof (band_condition_monotone s1 s2 2 e1 e2 36 Hs He) as H2.
  pose proof (band_condition_monotone s1 s2 4 e1 e2 50 Hs He) as H4.
  pose proof (band_condition_monotone s1 s2 6 e1 e2 60 Hs He) as H6.
  pose proof (band_condition_monotone s1 s2 8 e1 e2 70 Hs He) as H8.
  destruct ((s1 <=? 0) || Qltb e1 28), ((s2 <=? 0) || Qltb e2 28);
    try (specialize (H0 eq_refl); discriminate); clear H0; simpl; try lia;
  destruct ((s1 <=? 2) || Qltb e1 36), ((s2 <=? 2) || Qltb e2 36);
    try (specialize (H2 eq_refl); discriminate); clear H2; simpl; try lia;
  destruct ((s1 <=? 4) || Qltb e1 50), ((s2 <=? 4) || Qltb e2 50);
    try (specialize (H4 eq_refl); discriminate); clear H4; simpl; try lia;
  destruct ((s1 <=? 6) || Qltb e1 60), ((s2 <=? 6) || Qltb e2 60);
    try (specialize (H6 eq_refl); discriminate); clear H6; simpl; try lia;
  destruct ((s1 <=? 8) || Qltb e1 70), ((s2 <=? 8) || Qltb e2 70);
    try (specialize (H8 eq_refl); discriminate); clear H8; simpl; lia.
Qed.

Lemma _determine_strength_monotone_witness :
  StrengthLevel_value (_determine_strength 3 (40 # 1))
  <= StrengthLevel_value (_determine_strength 7 (65 # 1)).
Proof.
  apply (_determine_strength_monotone 3 7 (40 # 1) (65 # 1));
    [lia | discriminate].
Defined.

(** X9: the length check never lowers its score for a longer password;
    it gives feedback exactly to passwords shorter than the recommended
    12 characters. *)
Theorem _check_length_monotone (p q : pystr) :
  (List.length p <= List.length q)%nat ->
  fst (_check_length p) <= fst (_check_length q)
  /\ (snd (_check_length p) = [] <-> (12 <= List.length p)%nat).
Proof.
  intros Hpq. unfold _check_length, min_length, strong_length,
    recommended_length.
  destruct (Z.ltb_spec (Z.of_nat (List.length p)) 8),
    (Z.ltb_spec (Z.of_nat (List.length q)) 8); cbn [fst snd];
  unfold Z.geb;
  destruct (Z.compare_spec (Z.of_nat (List.length p)) 16),
    (Z.compare_spec (Z.of_nat (List.length q)) 16);
  destruct (Z.compare_spec (Z.of_nat (List.length p)) 12),
    (Z.compare_spec (Z.of_nat (List.length q)) 12);
  cbn [fst snd]; (split; [lia | split; [try discriminate; lia | try lia]]);
  try reflexivity.
Qed.

Lemma _check_length_monotone_witness :
  fst (_check_length (str "short")) <= fst (_check_length (str "longer one"))
  /\ (snd (_check_length (str "short")) = []
      <-> (12 <= List.length (str "short"))%nat).
Proof.
  apply (_check_length_monotone (str "short") (str "longer one")).
  vm_compute. lia.
Defined.

Lemma _check_length_range (pw : pystr) : -2 <= fst (_check_length pw) <= 3.
Proof.
  unfold _check_length.
  destruct (_ <? _); [simpl; lia|].
  destruct (_ >=? _); [simpl; lia|].
  destruct (_ >=? _); simpl; lia.
Qed.

Section Runtime.
Variable re_digit : codepoint -> bool.
Variable str_lower : pystr -> pystr.
Variable math_log2 : Z -> pyfloat.
Variable libm_pow2 : pyfloat -> pyfloat.

Local Abbreviation check_strength :=
  (check_strength re_digit str_lower math_log2 libm_pow2).
Local Abbreviation total_score := (total_score re_digit str_lower).
Local Abbreviation _calculate_entropy := (_calculate_entropy re_digit math_log2).
Local Abbreviation _check_character_variety :=
  (_check_character_variety re_digit).
Local Abbreviation _check_patterns := (_check_patterns str_lower).
Local Abbreviation _check_sequences := (_check_sequences str_lower).
Local Abbreviation all_feedback := (all_feedback re_digit str_lower).
Local Abbreviation has_digit := (has_digit re_digit).
Local Abbreviation charset_size_of := (charset_size_of re_digit).

Lemma _check_character_variety_score (pw : pystr) :
  fst (_check_character_variety pw)
  = Z.b2z (has_lower pw) + Z.b2z (has_upper pw) + Z.b2z (has_digit pw)
    + 2 * Z.b2z (has_symbol pw).
Proof.
  unfold PasswordStrengthChecker._check_character_variety.
  destruct (has_lower pw), (has_upper pw), (has_digit pw), (has_symbol pw);
    reflexivity.
Qed.

(** X10: the variety check gives its full score of 5 exactly when it
    gives no feedback, that is when all four classes are present. *)
Theorem _check_character_variety_full (pw : pystr) :
  (fst (_check_character_variety pw) = 5
   <-> snd (_check_character_variety pw) = [])
  /\ (snd (_check_character_variety pw) = []
      <-> has_lower pw && has_upper pw && has_digit pw && has_symbol pw
          = true)
  /\ 0 <= fst (_check_character_variety pw) <= 5.
Proof.
  unfold PasswordStrengthChecker._check_character_variety.
  destruct (has_lower pw), (has_upper pw), (has_digit pw), (has_symbol pw);
    cbn; repeat split; intros; try discriminate; try lia; reflexivity.
Qed.

(** X11: in the pattern and the sequence checks a penalty and a feedback
    entry always come together; the pattern check takes at most 6 and
    the sequence check at most 2, in at most two entries each. *)
Theorem penalties_are_explained (pw : pystr) :
  (-6 <= fst (_check_patterns pw) <= 0
   /\ (List.length (snd (_check_patterns pw)) <= 2)%nat
   /\ (fst (_check_patterns pw) = 0 <-> snd (_check_patterns pw) = []))
  /\ (-2 <= fst (_check_sequences pw) <= 0
      /\ fst (_check_sequences pw)
         = - Z.of_nat (List.length (snd (_check_sequences pw)))).
Proof.
  unfold PasswordStrengthChecker._check_patterns,
    PasswordStrengthChecker._check_sequences.
  destruct (bool_decide _), (first_match COMMON_PATTERNS _),
    (has_repeat3 pw), (first_match KEYBOARD_PATTERNS _);
    cbn; repeat split; intros; try discriminate; try lia; reflexivity.
Qed.

Lemma total_score_range (pw : pystr) : -10 <= total_score pw <= 8.
Proof.
  unfold PasswordStrengthChecker.total_score.
  pose proof (_check_length_range pw).
  destruct (_check_character_variety_full pw) as (_ & _ & ?).
  destruct (penalties_are_explained pw) as ((? & _) & (? & _)). lia.
Qed.

(** X12: no analysis has a score above 8, and none is rated
    [VERY_STRONG]: that level asks for a score above 8, while the length
    check gives at most 3 and the variety check at most 5. *)
Theorem very_strong_unreachable (pw : pystr) (r : PasswordAnalysis) :
  check_strength pw = Ok r ->
  score r <= 8 /\ strength r <> VERY_STRONG.
Proof.
  intros Hr. destruct pw as [|c pw'].
  - injection Hr as <-. simpl. split; [lia | discriminate].
  - destruct (check_strength_fields re_digit str_lower math_log2 libm_pow2
                (c :: pw') r ltac:(discriminate) Hr)
      as (_ & Hs & Hsc & _).
    pose proof (total_score_range (c :: pw')) as Ht.
    split; [rewrite Hsc; lia|]. rewrite Hs. unfold _determine_strength.
    destruct (Z.leb_spec (total_score (c :: pw')) 8) as [_|?]; [|lia].
    cbn [orb].
    do 4 (destruct (_ || _); [discriminate|]). discriminate.
Qed.

(** X13: the feedback of an analysis is never empty. *)
Theorem feedback_nonempty (pw : pystr) (r : PasswordAnalysis) :
  check_strength pw = Ok r -> feedback r <> [].
Proof.
  intros Hr. destruct pw as [|c pw'].
  - injection Hr as <-. discriminate.
  - destruct (check_strength_fields re_digit str_lower math_log2 libm_pow2
                (c :: pw') r ltac:(discriminate) Hr)
      as (_ & _ & _ & _ & Hf).
    rewrite Hf. destruct (all_feedback (c :: pw')); discriminate.
Qed.

(** X14: a nonempty password of fewer than 8 characters is told that it
    is too short and is rated [FAIR] at most. *)
Theorem short_password_at_most_fair (pw : pystr) (r : PasswordAnalysis) :
  check_strength pw = Ok r ->
  pw <> [] -> (List.length pw < 8)%nat ->
  In "Password too short. Use at least 8 characters"%string (feedback r)
  /\ StrengthLevel_value (strength r) <= 2.
Proof.
  intros Hr Hne Hshort.
  destruct (check_strength_fields re_digit str_lower math_log2 libm_pow2
              pw r Hne Hr) as (_ & Hs & _ & _ & Hf).
  assert (Hlen : _check_length pw
                 = (-2, ["Password too short. Use at least 8 characters"
                         %string])).
  { unfold _check_length, min_length.
    destruct (Z.ltb_spec (Z.of_nat (List.length pw)) 8) as [_|?]; [|lia].
    reflexivity. }
  split.
  - rewrite Hf. unfold PasswordStrengthChecker.all_feedback.
    rewrite Hlen. cbn [snd app]. left. reflexivity.
  - rewrite Hs.
    assert (Ht : total_score pw <= 3).
    { unfold PasswordStrengthChecker.total_score. rewrite Hlen. cbn [fst].
      destruct (_check_character_variety_full pw) as (_ & _ & ?).
      destruct (penalties_are_explained pw) as ((? & _) & (? & _)). lia. }
    unfold _determine_strength.
    destruct ((total_score pw <=? 0) || _); [simpl; lia|].
    destruct ((total_score pw <=? 2) || _); [simpl; lia|].
    destruct (Z.leb_spec (total_score pw) 4) as [_|?]; [simpl; lia | lia].
Qed.

(** X15: [OverflowError] is the only exception of [check_strength], and
    it is raised exactly for the passwords whose entropy reaches 1024
    bits. *)
Theorem check_strength_only_overflow (pw : pystr) (e : exn) :
  check_strength pw = Raise e ->
  e = OverflowError /\ pw <> [] /\ (1024 <= _calculate_entropy pw)%Q.
Proof.
  intros Hraise.
  destruct (Qlt_le_dec (_calculate_entropy pw) 1024) as [Hlt|Hge].
  - destruct (check_strength_returns re_digit str_lower math_log2 libm_pow2
                pw Hlt) as [r Hr]. congruence.
  - apply (check_strength_raises re_digit str_lower math_log2 libm_pow2)
      in Hge as Hov.
    split; [congruence|]. split; [|exact Hge].
    intros ->. discriminate.
Qed.

(** *** Character classes and entropy *)

Lemma charset_size_of_sizes (pw : pystr) :
  charset_size_of pw = 0 \/ In (charset_size_of pw) charset_sizes.
Proof.
  unfold PasswordStrengthChecker.charset_size_of, charset_sizes.
  destruct (has_lower pw), (has_upper pw), (has_digit pw), (has_symbol pw);
    cbn;
    first [ left; reflexivity
          | right; repeat (first [left; reflexivity | right]) ].
Qed.

Lemma some_class_present (pw : pystr) :
  (forall c, in_0_9 c = true -> re_digit c = true) ->
  pw <> [] ->
  has_lower pw || has_upper pw || has_digit pw || has_symbol pw = true.
Proof.
  intros Hd Hne. destruct pw as [|c pw']; [congruence|].
  unfold has_lower, has_upper, PasswordStrengthChecker.has_digit, has_symbol.
  cbn [existsb]. specialize (Hd c).
  destruct (in_a_z c); [reflexivity|].
  destruct (in_A_Z c); [cbn; now rewrite !orb_true_r|].
  destruct (in_0_9 c); [rewrite Hd by reflexivity; cbn;
                         now rewrite !orb_true_r|].
  cbn. now rewrite !orb_true_r.
Qed.

Lemma entropy_upper (B : Q) (pw : pystr) :
  (0 <= B)%Q ->
  (charset_size_of pw <> 0 ->
   (0 <= math_log2 (charset_size_of pw) <= B)%Q) ->
  (_calculate_entropy pw
   <= round2 (fmul (float_of_int (Z.of_nat (List.length pw))) B))%Q.
Proof.
  intros HB Hlog. unfold PasswordStrengthChecker._calculate_entropy.
  assert (Hlen : (0 <= float_of_int (Z.of_nat (List.length pw)))%Q).
  { apply FloatFacts.RN_nonneg. change 0%Q with (inject_Z 0).
    rewrite <- Zle_Qle. lia. }
  destruct (Z.eqb_spec (charset_size_of pw) 0) as [E|NE].
  - change 0%Q with (round2 (fmul 0%Q 0%Q)) at 1.
    apply FloatFacts.round2_monotone.
    eapply Qle_trans; [apply FloatFacts.fmul_monotone_l; [apply Qle_refl |
                                                           exact Hlen]|].
    now apply FloatFacts.fmul_monotone_r.
  - apply FloatFacts.round2_monotone, FloatFacts.fmul_monotone_r;
      [exact Hlen | now apply Hlog].
Qed.

Lemma entropy_lower (B : Q) (n : nat) (pw : pystr) :
  charset_size_of pw <> 0 ->
  (0 <= B <= math_log2 (charset_size_of pw))%Q ->
  (n <= List.length pw)%nat ->
  (round2 (fmul (float_of_int (Z.of_nat n)) B) <= _calculate_entropy pw)%Q.
Proof.
  intros Hcs [HB Hlog] Hn. unfold PasswordStrengthChecker._calculate_entropy.
  destruct (Z.eqb_spec (charset_size_of pw) 0) as [E|_]; [congruence|].
  apply FloatFacts.round2_monotone.
  eapply Qle_trans.
  - apply FloatFacts.fmul_monotone_l; [exact HB|].
    apply FloatFacts.float_of_int_monotone with (m := Z.of_nat (List.length pw)).
    lia.
  - apply FloatFacts.fmul_monotone_r; [|exact Hlog].
    apply FloatFacts.RN_nonneg. change 0%Q with (inject_Z 0).
    rewrite <- Zle_Qle. lia.
Qed.

(** X16: a nonempty password always has some class (a character that is
    no ASCII letter or digit counts as a symbol), so its charset size is
    one of eleven values between 10 and 94 and its entropy is at least 3
    bits: only the empty password has entropy 0. *)
Theorem nonempty_password_entropy (pw : pystr) :
  (forall c, in_0_9 c = true -> re_digit c = true) ->
  (forall n, In n charset_sizes -> (3 <= math_log2 n)%Q) ->
  pw <> [] ->
  In (charset_size_of pw) charset_sizes
  /\ (3 <= _calculate_entropy pw)%Q.
Proof.
  intros Hd Hlog Hne. pose proof (some_class_present pw Hd Hne) as Hcls.
  assert (Hcs : charset_size_of pw <> 0).
  { unfold PasswordStrengthChecker.charset_size_of.
    destruct (has_lower pw), (has_upper pw), (has_digit pw), (has_symbol pw);
      cbn; first [discriminate | discriminate Hcls]. }
  destruct (charset_size_of_sizes pw) as [?|Hin]; [congruence|].
  split; [exact Hin|].
  change 3%Q with (round2 (fmul (float_of_int (Z.of_nat 1)) 3%Q)) at 1.
  apply entropy_lower; [exact Hcs | split; [discriminate | now apply Hlog] |].
  destruct pw; [congruence | simpl; lia].
Qed.

(** X17: every password of at most 156 characters is analysed: its
    entropy stays below the 1024 bits at which [2 ** entropy]
    overflows. *)
Theorem short_enough_is_analysed (pw : pystr) :
  (forall n, In n charset_sizes -> (0 <= math_log2 n <= 164 # 25)%Q) ->
  (List.length pw <= 156)%nat ->
  exists r, check_strength pw = Ok r.
Proof.
  intros Hlog Hlen.
  apply (check_strength_returns re_digit str_lower math_log2 libm_pow2).
  eapply Qle_lt_trans; [apply (entropy_upper (164 # 25)); [discriminate|]|].
  - intros Hcs. apply Hlog.
    destruct (charset_size_of_sizes pw); [congruence | assumption].
  - eapply Qle_lt_trans.
    + apply FloatFacts.round2_monotone, FloatFacts.fmul_monotone_l;
        [discriminate|].
      apply FloatFacts.float_of_int_monotone with (m := 156). lia.
    + vm_compute. reflexivity.
Qed.

(** *** Common passwords *)

Lemma symbol_class_lower (c : codepoint) :
  negb (in_a_z (PasswordGenerator.ascii_lower c)
        || in_A_Z (PasswordGenerator.ascii_lower c)
        || in_0_9 (PasswordGenerator.ascii_lower c))
  = negb (in_a_z c || in_A_Z c || in_0_9 c).
Proof.
  unfold PasswordGenerator.ascii_lower, in_a_z, in_A_Z, in_0_9.
  destruct (N.leb_spec 65 c), (N.leb_spec c 90); cbn [andb];
    repeat match goal with
           | |- context [(?a <=? ?b)%N] => destruct (N.leb_spec a b)
           end; cbn; try reflexivity; lia.
Qed.

Lemma has_symbol_lower (pw : pystr) :
  has_symbol (List.map PasswordGenerator.ascii_lower pw) = has_symbol pw.
Proof.
  unfold has_symbol. induction pw as [|c pw IH]; [reflexivity|].
  cbn [List.map existsb]. now rewrite symbol_class_lower, IH.
Qed.

Lemma common_password_shape (e : pystr) :
  In e (List.map str COMMON_PASSWORDS) ->
  (1 <= List.length e <= 9)%nat /\ has_symbol e = false.
Proof.
  assert (H : forallb (fun e => (1 <=? List.length e)%nat
                                && (List.length e <=? 9)%nat
                                && negb (has_symbol e))
                (List.map str COMMON_PASSWORDS) = true)
    by (vm_compute; reflexivity).
  rewrite forallb_forall in H. intros He. apply H in He.
  apply andb_prop in He as [He Hs]. apply andb_prop in He as [H1 H9].
  apply Nat.leb_le in H1, H9. apply negb_true_iff in Hs. now split.
Qed.

(** X18: the common-password test ignores case: every password whose
    lower-case form is in the list is flagged, has score 0 and is rated
    [VERY_WEAK].  ([str.lower] is taken to act on the password as the
    ASCII lower-casing, as it does on ASCII text.) *)
Theorem common_password_any_case (pw : pystr) (r : PasswordAnalysis) :
  str_lower pw = List.map PasswordGenerator.ascii_lower pw ->
  In (List.map PasswordGenerator.ascii_lower pw)
     (List.map str COMMON_PASSWORDS) ->
  check_strength pw = Ok r ->
  strength r = VERY_WEAK /\ score r = 0
  /\ In "This is a commonly used password - avoid it"%string (feedback r).
Proof.
  intros Hlower Hin Hr.
  destruct (common_password_shape _ Hin) as [[H1 H9] Hsym].
  rewrite length_map in H1, H9. rewrite has_symbol_lower in Hsym.
  assert (Hne : pw <> []) by (intros ->; simpl in H1; lia).
  destruct (check_strength_fields re_digit str_lower math_log2 libm_pow2
              pw r Hne Hr) as (_ & Hs & Hsc & _ & Hf).
  assert (Hpat : fst (_check_patterns pw) <= -5
                 /\ In "This is a commonly used password - avoid it"%string
                      (snd (_check_patterns pw))).
  { unfold PasswordStrengthChecker._check_patterns. rewrite Hlower.
    rewrite bool_decide_eq_true_2 by (now apply list_elem_of_In).
    destruct (first_match COMMON_PATTERNS _); cbn; split; try lia; tauto. }
  destruct Hpat as [Hpen Hmsg].
  assert (Ht : total_score pw <= 0).
  { unfold PasswordStrengthChecker.total_score.
    rewrite _check_character_variety_score, Hsym.
    assert (fst (_check_length pw) <= 1).
    { unfold _check_length, strong_length, recommended_length.
      destruct (_ <? _); [simpl; lia|].
      destruct (Z.geb_spec (Z.of_nat (List.length pw)) 16); [lia|].
      destruct (Z.geb_spec (Z.of_nat (List.length pw)) 12); [lia|].
      simpl. lia. }
    destruct (penalties_are_explained pw) as (_ & (? & _)).
    destruct (has_lower pw), (has_upper pw), (has_digit pw); cbn; lia. }
  split; [|split].
  - rewrite Hs. unfold _determine_strength.
    destruct (Z.leb_spec (total_score pw) 0) as [_|?]; [reflexivity | lia].
  - rewrite Hsc. lia.
  - rewrite Hf.
    assert (Hall : In "This is a commonly used password - avoid it"%string
                     (all_feedback pw)).
    { unfold PasswordStrengthChecker.all_feedback.
      apply in_or_app. left. apply in_or_app. now right. }
    destruct (all_feedback pw); [destruct Hall | exact Hall].
Qed.

End Runtime.

(** The reference runtime on the charset sizes. *)
Lemma Reference_math_log2_sizes (n : Z) :
  In n charset_sizes ->
  (3 <= Reference.math_log2 n <= 164 # 25)%Q
  /\ (58 <= n -> (29 # 5 <= Reference.math_log2 n)%Q).
Proof.
  unfold charset_sizes. cbn [In]. intros H.
  repeat (destruct H as [<-|H]; [vm_compute; intuition (discriminate || lia)|]).
  destruct H.
Qed.

Lemma nonempty_password_entropy_witness :
  In (charset_size_of Reference.re_digit [233%N]) charset_sizes
  /\ (3 <= _calculate_entropy Reference.re_digit Reference.math_log2
             [233%N])%Q.
Proof.
  apply (nonempty_password_entropy Reference.re_digit Reference.math_log2
           [233%N]);
    [ intros c Hc; exact Hc
    | intros n Hn; apply (Reference_math_log2_sizes n Hn)
    | discriminate ].
Defined.

Lemma short_enough_is_analysed_witness :
  exists r,
    Reference.check_strength_ref (List.repeat 126%N 156) = Ok r.
Proof.
  apply (short_enough_is_analysed Reference.re_digit Reference.str_lower
           Reference.math_log2 Reference.libm_pow2 (List.repeat 126%N 156)).
  - intros n Hn. destruct (Reference_math_log2_sizes n Hn) as [[H3 H] _].
    split; [|exact H]. eapply Qle_trans; [|exact H3]. discriminate.
  - vm_compute. lia.
Defined.

(** The bound of 156 characters cannot be raised: 157 characters of the
    four classes carry 1029.07 bits. *)
Example check_strength_157_characters :
  Reference.check_strength_ref (str "aA1!" ++ List.repeat 97%N 153)
  = Raise OverflowError.
Proof. vm_compute. reflexivity. Qed.

Lemma common_password_any_case_witness :
  exists r,
    Reference.check_strength_ref (str "PassWord1") = Ok r
    /\ strength r = VERY_WEAK /\ score r = 0
    /\ In "This is a commonly used password - avoid it"%string (feedback r).
Proof.
  eexists. split; [vm_compute; reflexivity|].
  apply (common_password_any_case Reference.re_digit Reference.str_lower
           Reference.math_log2 Reference.libm_pow2 (str "PassWord1"));
    [ reflexivity
    | vm_compute; do 23 right; left; reflexivity
    | vm_compute; reflexivity ].
Defined.

Lemma very_strong_unreachable_witness :
  exists r,
    Reference.check_strength_ref (str "xK9#mQ2$vL7@wR4!zT6&") = Ok r
    /\ score r <= 8 /\ strength r <> VERY_STRONG.
Proof.
  eexists. split; [vm_compute; reflexivity|].
  apply (very_strong_unreachable Reference.re_digit Reference.str_lower
           Reference.math_log2 Reference.libm_pow2
           (str "xK9#mQ2$vL7@wR4!zT6&")).
  vm_compute. reflexivity.
Defined.

Lemma feedback_nonempty_witness :
  exists r,
    Reference.check_strength_ref (str "xK9#mQ2$vL7@wR4!zT6&") = Ok r
    /\ feedback r <> [].
Proof.
  eexists. split; [vm_compute; reflexivity|].
  apply (feedback_nonempty Reference.re_digit Reference.str_lower
           Reference.math_log2 Reference.libm_pow2
           (str "xK9#mQ2$vL7@wR4!zT6&")).
  vm_compute. reflexivity.
Defined.

Lemma short_password_at_most_fair_witness :
  exists r,
    Reference.check_strength_ref (str "aB3$xY7") = Ok r
    /\ In "Password too short. Use at least 8 characters"%string (feedback r)
    /\ StrengthLevel_value (strength r) <= 2.
Proof.
  eexists. split; [vm_compute; reflexivity|].
  apply (short_password_at_most_fair Reference.re_digit Reference.str_lower
           Reference.math_log2 Reference.libm_pow2 (str "aB3$xY7"));
    [vm_compute; reflexivity | discriminate | vm_compute; lia].
Defined.

Lemma check_strength_only_overflow_witness :
  OverflowError = OverflowError
  /\ List.repeat 33%N 205 <> []
  /\ (1024 <= _calculate_entropy Reference.re_digit Reference.math_log2
                (List.repeat 33%N 205))%Q.
Proof.
  apply (check_strength_only_overflow Reference.re_digit Reference.str_lower
           Reference.math_log2 Reference.libm_pow2 (List.repeat 33%N 205)).
  vm_compute. reflexivity.
Defined.

End CheckerMore.

(** ** Generating, then analysing

    [PasswordSecurityTool] analyses what it generates: a password in
    [generate_password_interactive], a passphrase in the menu. *)

Module ToolFacts.
Import PasswordGenerator PasswordStrengthChecker.
Import GeneratorFacts GeneratorMore CheckerFacts CheckerMore.

Lemma generate_Ok_spec length lo up di sy s pw s' :
  generate length lo up di sy s = Ok (pw, s') ->
  Z.of_nat (List.length pw) = length
  /\ (lo = true -> has_char_of lowercase pw = true)
  /\ (up = true -> has_char_of uppercase pw = true)
  /\ (di = true -> has_char_of digits pw = true)
  /\ (sy = true -> has_char_of symbols pw = true).
Proof.
  intros Hok. destruct (generate_Ok_valid _ _ _ _ _ _ _ _ Hok) as [Hlen Hf].
  destruct (generate_valid length lo up di sy s Hlen Hf)
    as (pw0 & s0 & Hok0 & Hspec).
  rewrite Hok in Hok0. now injection Hok0 as <- <-.
Qed.

Lemma class_transfer (f : codepoint -> bool) (cls pw : pystr) :
  forallb f cls = true -> has_char_of cls pw = true -> existsb f pw = true.
Proof.
  intros Hcls Hhas. unfold has_char_of in Hhas.
  apply existsb_exists in Hhas as (c & Hc & Hin).
  apply existsb_exists in Hin as (d & Hd & E). apply N.eqb_eq in E. subst d.
  apply existsb_exists. exists c. split; [exact Hc|].
  rewrite forallb_forall in Hcls. now apply Hcls.
Qed.

Lemma existsb_join_head (f : codepoint -> bool) separator w ws :
  existsb f w = true -> existsb f (join separator (w :: ws)) = true.
Proof.
  intros H. destruct ws as [|w2 ws']; [exact H|].
  change (join separator (w :: w2 :: ws'))
    with (w ++ separator ++ join separator (w2 :: ws')).
  now rewrite existsb_app, H.
Qed.

Lemma existsb_join_separator (f : codepoint -> bool) separator w w2 ws :
  existsb f separator = true ->
  existsb f (join separator (w :: w2 :: ws)) = true.
Proof.
  intros H.
  change (join separator (w :: w2 :: ws))
    with (w ++ separator ++ join separator (w2 :: ws)).
  rewrite !existsb_app, H. now rewrite orb_true_r.
Qed.

Lemma selectable_word_lower (cap : bool) (w : pystr) :
  In w (if cap then List.map capitalize word_list else word_list) ->
  has_lower w = true.
Proof.
  assert (H : forallb has_lower
                (if cap then List.map capitalize word_list else word_list)
              = true) by (destruct cap; vm_compute; reflexivity).
  rewrite forallb_forall in H. apply H.
Qed.

Section Runtime.
Variable re_digit : codepoint -> bool.
Variable str_lower : pystr -> pystr.
Variable math_log2 : Z -> pyfloat.
Variable libm_pow2 : pyfloat -> pyfloat.

Local Abbreviation check_strength :=
  (check_strength re_digit str_lower math_log2 libm_pow2).

(** X19: a password generated with the four classes selected has all
    four classes in the eyes of the checker: the variety check gives 5
    and no feedback, and the entropy is computed on a charset of 94. *)
Theorem generated_password_full_variety (length : Z) (s s' : rng)
  (pw : pystr) :
  (forall c, in_0_9 c = true -> re_digit c = true) ->
  generate length true true true true s = Ok (pw, s') ->
  _check_character_variety re_digit pw = (5, [])
  /\ charset_size_of re_digit pw = 94.
Proof.
  intros Hd Hok.
  destruct (generate_Ok_spec _ _ _ _ _ _ _ _ Hok) as (_ & Hl & Hu & Hdi & Hs).
  assert (H1 : has_lower pw = true).
  { apply (class_transfer in_a_z lowercase); [reflexivity | now apply Hl]. }
  assert (H2 : has_upper pw = true).
  { apply (class_transfer in_A_Z uppercase); [reflexivity | now apply Hu]. }
  assert (H3 : has_digit re_digit pw = true).
  { apply (class_transfer re_digit digits); [|now apply Hdi].
    apply forallb_forall. intros c Hc. apply Hd.
    assert (Hall : forallb in_0_9 digits = true) by reflexivity.
    rewrite forallb_forall in Hall. now apply Hall. }
  assert (H4 : has_symbol pw = true).
  { apply (class_transfer
             (fun c => negb (in_a_z c || in_A_Z c || in_0_9 c)) symbols);
      [reflexivity | now apply Hs]. }
  unfold _check_character_variety, charset_size_of.
  now rewrite H1, H2, H3, H4.
Qed.

(** X20: every password [generate] returns for a length of at most 156,
    and so every one the interactive tool asks for (8 to 32 characters),
    is analysed by [check_strength] without an exception. *)
Theorem generated_password_is_analysed (length : Z) (lo up di sy : bool)
  (s s' : rng) (pw : pystr) :
  (forall n, In n charset_sizes -> (0 <= math_log2 n <= 164 # 25)%Q) ->
  length <= 156 ->
  generate length lo up di sy s = Ok (pw, s') ->
  exists r, check_strength pw = Ok r.
Proof.
  intros Hlog Hlen Hok.
  destruct (generate_Ok_spec _ _ _ _ _ _ _ _ Hok) as (Hl & _).
  apply short_enough_is_analysed; [exact Hlog | lia].
Qed.

(** X21: a passphrase of 30 words or more, joined by dashes, cannot be
    analysed: it has at least 179 characters over a charset of at least
    58, hence 1024 bits or more, and [check_strength] raises
    [OverflowError]. *)
Theorem long_passphrase_overflows (word_count : Z) (cap : bool)
  (s s' : rng) (pp : pystr) :
  (forall n, In n charset_sizes -> 58 <= n -> (29 # 5 <= math_log2 n)%Q) ->
  30 <= word_count ->
  generate_passphrase word_count (str "-") cap s = Ok (pp, s') ->
  check_strength pp = Raise OverflowError.
Proof.
  intros Hlog Hwc Hok.
  destruct (generate_passphrase_words word_count (str "-") cap s
              ltac:(lia)) as (ws & s0 & Hok0 & Hlen & Hin).
  rewrite Hok in Hok0. injection Hok0 as -> _.
  assert (Hne : ws <> []) by (destruct ws; [simpl in Hlen; lia | discriminate]).
  assert (Hbounds : Forall (fun w => (5 <= List.length w <= 11)%nat) ws).
  { eapply List.Forall_impl; [|exact Hin].
    intros w Hw. now apply (selectable_word_ok cap). }
  pose proof (join_length_bounds (str "-") ws Hne Hbounds) as Hb.
  cbv zeta in Hb. rewrite Hlen in Hb.
  change (Z.of_nat (List.length (str "-"))) with 1 in Hb.
  assert (Hlower : has_lower (join (str "-") ws) = true).
  { destruct ws as [|w ws']; [congruence|].
    apply existsb_join_head. apply (selectable_word_lower cap).
    now apply Forall_cons_1 in Hin as [Hw _]. }
  assert (Hsymbol : has_symbol (join (str "-") ws) = true).
  { destruct ws as [|w [|w2 ws']]; [congruence | simpl in Hlen; lia |].
    now apply existsb_join_separator. }
  set (pp := join (str "-") ws) in *.
  assert (Hcs : 58 <= charset_size_of re_digit pp).
  { unfold charset_size_of. rewrite Hlower, Hsymbol.
    destruct (has_upper pp), (has_digit re_digit pp); cbn; lia. }
  apply (check_strength_raises re_digit str_lower math_log2 libm_pow2).
  apply Qle_trans
    with (round2 (fmul (float_of_int (Z.of_nat 179)) (29 # 5))).
  { vm_compute. discriminate. }
  apply entropy_lower; [lia | | lia].
  split; [discriminate|]. apply Hlog; [|exact Hcs].
  destruct (charset_size_of_sizes re_digit pp); [lia | assumption].
Qed.

End Runtime.

Lemma generated_password_full_variety_witness :
  exists pw s',
    generate 16 true true true true (fun n => (3 * n + 2)%nat) = Ok (pw, s')
    /\ _check_character_variety Reference.re_digit pw = (5, [])
    /\ charset_size_of Reference.re_digit pw = 94.
Proof.
  eexists. eexists. split; [vm_compute; reflexivity|].
  eapply (generated_password_full_variety Reference.re_digit 16
            (fun n => (3 * n + 2)%nat));
    [ intros c Hc; exact Hc | vm_compute; reflexivity ].
Defined.

Lemma generated_password_is_analysed_witness :
  exists pw s',
    generate 32 true true true true (fun n => (3 * n + 2)%nat) = Ok (pw, s')
    /\ exists r, Reference.check_strength_ref pw = Ok r.
Proof.
  eexists. eexists. split; [vm_compute; reflexivity|].
  eapply (generated_password_is_analysed Reference.re_digit
            Reference.str_lower Reference.math_log2 Reference.libm_pow2
            32 true true true true (fun n => (3 * n + 2)%nat)).
  - intros n Hn. destruct (Reference_math_log2_sizes n Hn) as [[H3 H] _].
    split; [|exact H]. eapply Qle_trans; [|exact H3]. discriminate.
  - lia.
  - vm_compute. reflexivity.
Defined.

Lemma long_passphrase_overflows_witness :
  exists pp s',
    generate_passphrase 30 (str "-") false (fun n => (5 * n)%nat)
    = Ok (pp, s')
    /\ Reference.check_strength_ref pp = Raise OverflowError.
Proof.
  eexists. eexists. split; [vm_compute; reflexivity|].
  eapply (long_passphrase_overflows Reference.re_digit Reference.str_lower
            Reference.math_log2 Reference.libm_pow2 30 false
            (fun n => (5 * n)%nat)).
  - intros n Hn. now apply Reference_math_log2_sizes.
  - lia.
  - vm_compute. reflexivity.
Defined.

End ToolFacts.

(** ** Patterns, repeats and the best level *)

Module PatternFacts.
Import PasswordStrengthChecker CheckerFacts CheckerMore.

(** [s] has the pattern as a run of consecutive characters. *)
Local Abbreviation occurs_in pattern s :=
  (exists pre post : pystr, s = pre ++ pattern ++ post).





Section Runtime.
Variable re_digit : codepoint -> bool.
Variable str_lower : pystr -> pystr.
Variable math_log2 : Z -> pyfloat.
Variable libm_pow2 : pyfloat -> pyfloat.

Local Abbreviation check_strength :=
  (check_strength re_digit str_lower math_log2 libm_pow2).
Local Abbreviation total_score := (total_score re_digit str_lower).

(** X24: [STRONG], the best level an analysis can have, is only given
    to passwords of at least 12 characters that contain a symbol, with a
    score of 7 or 8 and at least 60 bits of entropy. *)
Theorem strong_requirements (pw : pystr) (r : PasswordAnalysis) :
  check_strength pw = Ok r -> strength r = STRONG ->
  (12 <= List.length pw)%nat /\ has_symbol pw = true
  /\ 7 <= score r <= 8 /\ (60 <= entropy r)%Q.
Proof.
  intros Hr Hstrong. destruct pw as [|c pw'].
  { injection Hr as <-. discriminate. }
  destruct (check_strength_fields re_digit str_lower math_log2 libm_pow2
              (c :: pw') r ltac:(discriminate) Hr)
    as (_ & Hs & Hsc & He & _).
  set (pw := c :: pw') in *.
  pose proof (total_score_range re_digit str_lower pw) as Ht.
  rewrite Hs in Hstrong. unfold _determine_strength in Hstrong.
  destruct ((total_score pw <=? 0) || _); [discriminate|].
  destruct ((total_score pw <=? 2) || _); [discriminate|].
  destruct ((total_score pw <=? 4) || _); [discriminate|].
  destruct ((total_score pw <=? 6) || Qltb _ 60) eqn:H6; [discriminate|].
  apply orb_false_iff in H6 as [H6 H60].
  apply Z.leb_gt in H6. unfold Qltb in H60.
  apply negb_false_iff, Qle_bool_iff in H60.
  assert (Hparts : 2 <= fst (_check_length pw)
                   /\ has_symbol pw = true).
  { unfold PasswordStrengthChecker.total_score in H6.
    pose proof (_check_length_range pw).
    rewrite _check_character_variety_score in H6.
    destruct (penalties_are_explained str_lower pw) as ((? & _) & (? & _)).
    destruct (has_lower pw), (has_upper pw), (has_digit re_digit pw),
      (has_symbol pw); cbn in H6; split; try reflexivity; lia. }
  destruct Hparts as [Hlen Hsym].
  repeat split; try (rewrite Hsc; lia); [| exact Hsym | now rewrite He].
  unfold _check_length, min_length, strong_length, recommended_length
    in Hlen.
  destruct (Z.ltb_spec (Z.of_nat (List.length pw)) 8); [simpl in Hlen; lia|].
  destruct (Z.geb_spec (Z.of_nat (List.length pw)) 16); [lia|].
  destruct (Z.geb_spec (Z.of_nat (List.length pw)) 12); [lia|].
  simpl in Hlen. lia.
Qed.

End Runtime.

Lemma strong_requirements_witness :
  exists r,
    Reference.check_strength_ref (str "xK9#mQ2$vL7@wR4!zT6&") = Ok r
    /\ (12 <= List.length (str "xK9#mQ2$vL7@wR4!zT6&"))%nat
    /\ has_symbol (str "xK9#mQ2$vL7@wR4!zT6&") = true
    /\ 7 <= score r <= 8 /\ (60 <= entropy r)%Q.
Proof.
  eexists. split; [vm_compute; reflexivity|].
  apply (strong_requirements Reference.re_digit Reference.str_lower
           Reference.math_log2 Reference.libm_pow2
           (str "xK9#mQ2$vL7@wR4!zT6&"));
    vm_compute; reflexivity.
Defined.

End PatternFacts.
